(** * sftpgo-api: a shallow embedding of the REST client

    The development follows the Go package [api]:
    - the data-transfer records and [Users.Filter];
    - the caching [tokenProvider] and the request plugin that attaches
      the bearer token;
    - client.go: the typed operations, pagination in [GetAllUsers] and
      the classification of error responses.

    The remote server, the HTTP transport, the wall clock and the JSON
    decoder are collaborators of the package, not part of it.  They are
    gathered in the class [Remote]; every operation is a function of the
    state of that environment and leaves a log of the requests it handed
    to the transport. *)

From stdpp Require Import base list strings gmap.
From Stdlib Require Import ZArith DecimalPos DecimalZ DecimalString Lia.

Local Open Scope Z_scope.

(** ** Go's machine integers and [strconv.Itoa] *)

Module GoInt.

(** [int] and [int64] are 64-bit two's complement integers; arithmetic
    wraps around silently. *)
Definition bits : Z := 64.
Definition MinInt : Z := - 2 ^ (bits - 1).
Definition MaxInt : Z := 2 ^ (bits - 1) - 1.

Definition wrap (z : Z) : Z := (z - MinInt) `mod` 2 ^ bits + MinInt.

Definition in_range (z : Z) : Prop := MinInt <= z <= MaxInt.

(** [a + b] on [int]. *)
Definition add (a b : Z) : Z := wrap (a + b).

(** [len(s)] as an [int]. *)
Definition len {A} (s : list A) : Z := Z.of_nat (length s).

(** [strconv.Itoa]: the decimal rendering, with a leading minus sign for
    negative numbers. *)
Definition Itoa (z : Z) : string := NilZero.string_of_int (Z.to_int z).

(** The inverse reading, used to state that [Itoa] is a decimal
    rendering. *)
Definition Atoi (s : string) : option Z :=
  Z.of_int <$> NilZero.int_of_string s.

End GoInt.

(** ** Data model *)

(** [type FilesystemProvider int] with its [iota] constants. *)
Definition FilesystemProvider : Type := Z.
Definition LocalFilesystemProvider : FilesystemProvider := 0.
Definition S3FilesystemProvider : FilesystemProvider := 1.
Definition GCSFilesystemProvider : FilesystemProvider := 2.
Definition AzureBlobFilesystemProvider : FilesystemProvider := 3.
Definition CryptedFilesystemProvider : FilesystemProvider := 4.
Definition SFTPFilesystemProvider : FilesystemProvider := 5.

Definition SecretStatus : Type := string.

Record Secret : Type := {
  Secret_Status : SecretStatus;
  Secret_Payload : string;
  Secret_Key : string;
  Secret_AdditionalData : string;
  Secret_Mode : Z
}.

Record S3FsConfig : Type := {
  Bucket : string;
  KeyPrefix : string;
  Region : string;
  AccessKey : string;
  AccessSecret : Secret;
  Endpoint : string;
  StorageClass : string;
  UploadPartSize : Z;
  UploadConcurrency : Z
}.

Record Filesystem : Type := {
  Provider : FilesystemProvider;
  S3Config : S3FsConfig
}.

Record ExtensionsFilter : Type := {
  ExtensionsFilter_Path : string;
  AllowedExtensions : list string;
  DeniedExtensions : list string
}.

Record PatternsFilter : Type := {
  PatternsFilter_Path : string;
  AllowedPatterns : list string;
  DeniedPatterns : list string
}.

Record UserFilters : Type := {
  AllowedIP : list string;
  DeniedIP : list string;
  DeniedLoginMethods : list string;
  DeniedProtocols : list string;
  FileExtensions : list ExtensionsFilter;
  FilePatterns : list PatternsFilter;
  MaxUploadFileSize : Z
}.

Record User : Type := {
  ID : Z;
  Status : Z;
  Username : string;
  ExpirationDate : Z;
  Password : string;
  PublicKeys : list string;
  HomeDir : string;
  UID : Z;
  GID : Z;
  MaxSessions : Z;
  QuotaSize : Z;
  QuotaFiles : Z;
  Permissions : gmap string (list string);
  UsedQuotaSize : Z;
  UsedQuotaFiles : Z;
  LastQuotaUpdate : Z;
  UploadBandwidth : Z;
  DownloadBandwidth : Z;
  LastLogin : Z;
  Filters : UserFilters;
  FsConfig : Filesystem;
  AdditionalInfo : string
}.

(** [type Users []User]; the nil slice and the empty slice are both [[]]. *)
Definition Users : Type := list User.

Record ConnectionTransfer : Type := {
  OperationType : string;
  StartTime : Z;
  Size : Z;
  VirtualPath : string
}.

Record ConnectionStatus : Type := {
  ConnectionStatus_Username : string;
  ConnectionID : string;
  ClientVersion : string;
  RemoteAddress : string;
  ConnectionTime : Z;
  LastActivity : Z;
  Protocol : string;
  Transfers : list ConnectionTransfer;
  Command : string
}.

Record UserQuotaScan : Type := {
  UserQuotaScan_Username : string;
  Start : Z
}.

Definition UserQuotaScans : Type := list UserQuotaScan.

(** Go's zero values, as [User{}] and friends build them. *)
Definition zero_Secret : Secret :=
  {| Secret_Status := ""; Secret_Payload := ""; Secret_Key := "";
     Secret_AdditionalData := ""; Secret_Mode := 0 |}.

Definition zero_S3FsConfig : S3FsConfig :=
  {| Bucket := ""; KeyPrefix := ""; Region := ""; AccessKey := "";
     AccessSecret := zero_Secret; Endpoint := ""; StorageClass := "";
     UploadPartSize := 0; UploadConcurrency := 0 |}.

Definition zero_UserFilters : UserFilters :=
  {| AllowedIP := []; DeniedIP := []; DeniedLoginMethods := [];
     DeniedProtocols := []; FileExtensions := []; FilePatterns := [];
     MaxUploadFileSize := 0 |}.

Definition zero_User : User :=
  {| ID := 0; Status := 0; Username := ""; ExpirationDate := 0;
     Password := ""; PublicKeys := []; HomeDir := ""; UID := 0; GID := 0;
     MaxSessions := 0; QuotaSize := 0; QuotaFiles := 0; Permissions := ∅;
     UsedQuotaSize := 0; UsedQuotaFiles := 0; LastQuotaUpdate := 0;
     UploadBandwidth := 0; DownloadBandwidth := 0; LastLogin := 0;
     Filters := zero_UserFilters;
     FsConfig := {| Provider := LocalFilesystemProvider;
                    S3Config := zero_S3FsConfig |};
     AdditionalInfo := "" |}.

(** [User{ID: n}] *)
Definition User_with_ID (n : Z) : User :=
  {| ID := n; Status := Status zero_User; Username := Username zero_User;
     ExpirationDate := ExpirationDate zero_User;
     Password := Password zero_User; PublicKeys := PublicKeys zero_User;
     HomeDir := HomeDir zero_User; UID := UID zero_User;
     GID := GID zero_User; MaxSessions := MaxSessions zero_User;
     QuotaSize := QuotaSize zero_User; QuotaFiles := QuotaFiles zero_User;
     Permissions := Permissions zero_User;
     UsedQuotaSize := UsedQuotaSize zero_User;
     UsedQuotaFiles := UsedQuotaFiles zero_User;
     LastQuotaUpdate := LastQuotaUpdate zero_User;
     UploadBandwidth := UploadBandwidth zero_User;
     DownloadBandwidth := DownloadBandwidth zero_User;
     LastLogin := LastLogin zero_User; Filters := Filters zero_User;
     FsConfig := FsConfig zero_User;
     AdditionalInfo := AdditionalInfo zero_User |}.

(** ** [Users.Filter] *)

(** [type UserFilterFunc func(user User) bool] *)
Definition UserFilterFunc : Type := User → bool.

(** One turn of the [range] loop: [Results] grows by the record when the
    predicate holds for it. *)
Definition Filter_step (f : UserFilterFunc) (Results : Users) (u : User) : Users :=
  if f u then Results ++ [u] else Results.

(** [func (users Users) Filter(f UserFilterFunc) Users]: [Results] starts
    as the nil slice and the loop runs over [users] from the front. *)
Definition Filter (users : Users) (f : UserFilterFunc) : Users :=
  foldl (Filter_step f) [] users.

(** ** Errors (client.go) *)

(** [type apiError struct]: the body of an error response. *)
Record apiError : Type := {
  Message : string;
  Err : string
}.

Definition zero_apiError : apiError := {| Message := ""; Err := "" |}.

(** [func (err apiError) Error() string] *)
Definition apiError_Error (err : apiError) : string :=
  if bool_decide (Err err ≠ "") then Err err else Message err.

(** The values an [error] of this package can hold.  [ErrUnauthorized] and
    [ErrForbidden] are the two package-level sentinels, [APIError] is a
    pointer to a decoded [apiError]; the other two come from the
    collaborators and carry their message. *)
Inductive error : Type :=
  | ErrUnauthorized
  | ErrForbidden
  | APIError (e : apiError)
  | TransportError (msg : string)
  | DecodeError (msg : string).

(** [err.Error()]; the sentinels are built from [http.StatusText]. *)
Definition Error (e : error) : string :=
  match e with
  | ErrUnauthorized => "Unauthorized"
  | ErrForbidden => "Forbidden"
  | APIError a => apiError_Error a
  | TransportError msg => msg
  | DecodeError msg => msg
  end.

Definition is_sentinel (e : error) : bool :=
  match e with
  | ErrUnauthorized | ErrForbidden => true
  | _ => false
  end.

(** ** Requests, responses and clients (gentleman) *)

(** Instants and durations count nanoseconds; instants are relative to the
    Unix epoch. *)
Definition Time : Type := Z.
Definition Duration : Type := Z.
Definition Second : Duration := 1000000000.

(** [time.Time{}], January 1 of year 1. *)
Definition zero_Time : Time := -62135596800 * Second.

(** [t.Add(d)] and [t.After(u)] *)
Definition Time_Add (t : Time) (d : Duration) : Time := t + d.
Definition Time_After (t u : Time) : bool := bool_decide (u < t).

Record Timeouts : Type := {
  Timeouts_Request : Duration;
  Timeouts_TLS : Duration;
  Timeouts_Dial : Duration;
  Timeouts_KeepAlive : Duration
}.

(** What a request looks like when it is handed to the transport.  Query
    parameters and headers are maps: [SetQuery] and [Header.Set] replace
    the value of a key.  [BasicAuth] holds the credentials that
    [auth.Basic] puts on the request, [JSONBody] the value given to
    [req.JSON]. *)
Record Request : Type := {
  Method : string;
  BaseURL : string;
  Path : string;
  Query : gmap string string;
  Header : gmap string string;
  BasicAuth : option (string * string);
  JSONBody : option User
}.

(** A response, for a body of type [B].  The transport hands it over as
    the server sent it. *)
Record Response (B : Type) : Type := {
  StatusCode : Z;
  RespBody : B
}.
Arguments StatusCode {B} _.
Arguments RespBody {B} _.

(** [resp.Ok], which gentleman sets for the status codes 200 to 299. *)
Definition Ok {B} (resp : Response B) : bool :=
  bool_decide (200 ≤ StatusCode resp < 300).

Definition StatusUnauthorized : Z := 401.
Definition StatusForbidden : Z := 403.

(** A client: the base URL given to [cli.URL] and the plugins given to
    [cli.Use], for plugins of type [P]. *)
Record gentleman_Client (P : Type) : Type := {
  URL : string;
  Middleware : list P
}.
Arguments URL {P} _.
Arguments Middleware {P} _.

(** [gentleman.New()], [cli.URL(u)] and [cli.Use(p)] *)
Definition gentleman_New {P} : gentleman_Client P :=
  {| URL := ""; Middleware := [] |}.
Definition Client_URL {P} (u : string) (c : gentleman_Client P) : gentleman_Client P :=
  {| URL := u; Middleware := Middleware c |}.
Definition Client_Use {P} (p : P) (c : gentleman_Client P) : gentleman_Client P :=
  {| URL := URL c; Middleware := Middleware c ++ [p] |}.

(** [cli.Request()]: a GET request to the client's base URL. *)
Definition Client_Request {P} (c : gentleman_Client P) : Request :=
  {| Method := "GET"; BaseURL := URL c; Path := ""; Query := ∅;
     Header := ∅; BasicAuth := None; JSONBody := None |}.

(** The setters of a request. *)
Definition Request_Method (m : string) (r : Request) : Request :=
  {| Method := m; BaseURL := BaseURL r; Path := Path r; Query := Query r;
     Header := Header r; BasicAuth := BasicAuth r; JSONBody := JSONBody r |}.
Definition Request_Path (p : string) (r : Request) : Request :=
  {| Method := Method r; BaseURL := BaseURL r; Path := p; Query := Query r;
     Header := Header r; BasicAuth := BasicAuth r; JSONBody := JSONBody r |}.
Definition Request_SetQuery (k v : string) (r : Request) : Request :=
  {| Method := Method r; BaseURL := BaseURL r; Path := Path r;
     Query := <[k:=v]> (Query r);
     Header := Header r; BasicAuth := BasicAuth r; JSONBody := JSONBody r |}.
Definition Request_Header_Set (k v : string) (r : Request) : Request :=
  {| Method := Method r; BaseURL := BaseURL r; Path := Path r;
     Query := Query r; Header := <[k:=v]> (Header r);
     BasicAuth := BasicAuth r; JSONBody := JSONBody r |}.
Definition Request_JSON (u : User) (r : Request) : Request :=
  {| Method := Method r; BaseURL := BaseURL r; Path := Path r;
     Query := Query r; Header := Header r; BasicAuth := BasicAuth r;
     JSONBody := Some u |}.
(** [req.Use(auth.Basic(user, pass))] *)
Definition Request_Basic (user pass : string) (r : Request) : Request :=
  {| Method := Method r; BaseURL := BaseURL r; Path := Path r;
     Query := Query r; Header := Header r;
     BasicAuth := Some (user, pass); JSONBody := JSONBody r |}.

(** ** The token provider's state *)

(** [type tokenProvider struct].  Its client carries timeout plugins
    only. *)
Record tokenProvider : Type := {
  Value : string;
  Expires : Time;
  Client : gentleman_Client Timeouts;
  tokenProvider_Username : string;
  tokenProvider_Password : string
}.

(** [func NewTokenProvider(cli, Username, Password) TokenProvider] *)
Definition NewTokenProvider (c : gentleman_Client Timeouts)
    (Username Password : string) : tokenProvider :=
  {| Value := ""; Expires := zero_Time; Client := c;
     tokenProvider_Username := Username;
     tokenProvider_Password := Password |}.

(** ** The environment *)

(** What the package relies on and does not define:
    - [roundTrip]: the transport and the remote server behind it; from a
      state of the environment and a request it gives the next state and
      either a transport failure or the server's response;
    - [clock]: [time.Now()];
    - the JSON decoders behind [resp.JSON(dest)], one per type of [dest].
      A decoder updates [dest] in place and may fail; it gets the body and
      the old value of [dest] and gives the new value and the failure. *)
Class Remote : Type := {
  Env : Type;
  Body : Type;
  roundTrip : Env → Request → Env * (string + Response Body);
  clock : Env → Time;
  json_apiError : Body → apiError → apiError * option string;
  json_tokenProvider : Body → tokenProvider → tokenProvider * option string;
  json_Users : Body → Users → Users * option string;
  json_UserQuotaScans : Body → UserQuotaScans → UserQuotaScans * option string;
  json_ConnectionStatus : Body → list ConnectionStatus → list ConnectionStatus * option string
}.

(** The state an operation runs in: the environment, the token provider
    that the token plugin closes over, and the requests handed to the
    transport so far, oldest first. *)
Record World `{Remote} : Type := {
  env : Env;
  provider : tokenProvider;
  log : list Request
}.

(** Operations are state transformers on [World]. *)
Definition M `{Remote} (A : Type) : Type := World → A * World.

Global Instance M_ret `{Remote} : MRet M := λ A a w, (a, w).
Global Instance M_bind `{Remote} : MBind M :=
  λ A B f m w, let '(a, w') := m w in f a w'.

(** The plugins a client of this package is given: [timeout.All] and the
    plugin that [NewTokenPlugin] builds around the provider. *)
Inductive Plugin : Type :=
  | TimeoutAll (t : Timeouts)
  | TokenPlugin.

(** What a request plugin does with the request: [h.Next(ctx)] lets it
    proceed, [h.Error(ctx, err)] stops it and makes [req.Do()] return
    [err]. *)
Inductive Handled : Type :=
  | h_Next (req : Request)
  | h_Error (err : error).

(** [type client struct { cli *gentleman.Client }] *)
Record client : Type := {
  cli : gentleman_Client Plugin
}.

(** [type GetUsersInput struct] *)
Record GetUsersInput : Type := {
  Offset : Z;
  Limit : Z;
  Order : string
}.

(** The methods of [type Client interface] that issue a single request,
    with their arguments. *)
Inductive Operation : Type :=
  | Call_GetUsers (input : GetUsersInput)
  | Call_GetUserQuotaScans
  | Call_StartUserQuotaScan (user : User)
  | Call_GetActiveConnections.

Section Operations.
Context `{Remote}.

(** *** Access to the state *)

Definition get_provider : M tokenProvider := λ w, (provider w, w).

Definition put_provider (t : tokenProvider) : M unit := λ w,
  (tt, {| env := env w; provider := t; log := log w |}).

(** [time.Now()] *)
Definition time_Now : M Time := λ w, (clock (env w), w).

(** The request goes to the transport and is logged; a failure of the
    transport becomes the error of [req.Do()]. *)
Definition send (req : Request) : M (error + Response Body) := λ w,
  let '(e', r) := roundTrip (env w) req in
  (match r with
   | inl msg => inl (TransportError msg)
   | inr resp => inr resp
   end,
   {| env := e'; provider := provider w; log := log w ++ [req] |}).

(** *** Dispatch of a request *)

(** The request phase: the plugins run in the order of [cli.Use]; the
    first [h.Error] ends the phase. *)
Fixpoint run_middleware {P} (run : P → Request → M Handled)
    (ps : list P) (req : Request) : M Handled :=
  match ps with
  | [] => mret (h_Next req)
  | p :: ps' =>
      h ← run p req;
      match h with
      | h_Next req' => run_middleware run ps' req'
      | h_Error err => mret (h_Error err)
      end
  end.

(** [req.Do()] for a request of client [c] *)
Definition Do {P} (run : P → Request → M Handled)
    (c : gentleman_Client P) (req : Request) : M (error + Response Body) :=
  h ← run_middleware run (Middleware c) req;
  match h with
  | h_Next req' => send req'
  | h_Error err => mret (inl err)
  end.

(** [timeout.All] configures the transport and lets the request pass. *)
Definition run_Timeouts (t : Timeouts) (req : Request) : M Handled :=
  mret (h_Next req).

(** [resp.JSON(dest)] *)
Definition Response_JSON {A} (decode : Body → A → A * option string)
    (resp : Response Body) (dest : A) : A * option error :=
  let '(dest', failure) := decode (RespBody resp) dest in
  (dest', DecodeError <$> failure).

(** *** client.go: [parseErrorResponse] *)

Definition parseErrorResponse (resp : Response Body) : error :=
  if bool_decide (StatusCode resp = StatusUnauthorized) then ErrUnauthorized
  else if bool_decide (StatusCode resp = StatusForbidden) then ErrForbidden
  else
    let '(apiErr, err) := Response_JSON json_apiError resp zero_apiError in
    match err with
    | Some e => e
    | None => APIError apiErr
    end.

(** *** The token provider and its plugin *)

Definition token_path : string := "/api/v2/token".

(** The request that [Token] builds for a refresh. *)
Definition token_request (t : tokenProvider) : Request :=
  let req := Client_Request (Client t) in
  let req := Request_Path token_path req in
  Request_Basic (tokenProvider_Username t) (tokenProvider_Password t) req.

(** The world after a refresh request: the transport has moved the
    environment to [e'], the provider holds [t'] and the request is
    logged. *)
Definition refreshed (w : World) (e' : Env) (t' : tokenProvider) : World :=
  {| env := e'; provider := t'; log := log w ++ [token_request (provider w)] |}.

(** [func (t *tokenProvider) Token() (string, error)] *)
Definition Token : M (string * option error) :=
  t ← get_provider;
  now ← time_Now;
  if Time_After (Expires t) (Time_Add now (Second * 10)) then
    mret (Value t, None)
  else
    r ← Do run_Timeouts (Client t) (token_request t);
    match r with
    | inl err => mret ("", Some err)
    | inr resp =>
        if Ok resp then
          t ← get_provider;
          let '(t', err) := Response_JSON json_tokenProvider resp t in
          put_provider t';;
          match err with
          | Some e => mret ("", Some e)
          | None => mret (Value t', None)
          end
        else mret ("", Some (parseErrorResponse resp))
    end.

(** The handler that [NewTokenPlugin] registers with
    [plugin.NewRequestPlugin]. *)
Definition TokenPlugin_handler (req : Request) : M Handled :=
  '(token, err) ← Token;
  match err with
  | None => mret (h_Next (Request_Header_Set "Authorization" ("Bearer " +:+ token) req))
  | Some e => mret (h_Error e)
  end.

Definition run_Plugin (p : Plugin) (req : Request) : M Handled :=
  match p with
  | TimeoutAll t => run_Timeouts t req
  | TokenPlugin => TokenPlugin_handler req
  end.

(** [func NewTokenPlugin(URL, Username, Password string) plugin.Plugin]:
    the plugin and the provider it closes over. *)
Definition NewTokenPlugin (URL Username Password : string) : Plugin * tokenProvider :=
  let c := gentleman_New in
  let c := Client_URL URL c in
  let c := Client_Use {| Timeouts_Request := 5 * Second;
                         Timeouts_TLS := 5 * Second;
                         Timeouts_Dial := 5 * Second;
                         Timeouts_KeepAlive := 5 * Second |} c in
  (TokenPlugin, NewTokenProvider c Username Password).

(** *** client.go *)

(** [func NewClient(URL, Username, Password string) Client], with the
    provider that its token plugin owns. *)
Definition NewClient (URL Username Password : string) : client * tokenProvider :=
  let c := gentleman_New in
  let c := Client_URL URL c in
  let '(plug, prov) := NewTokenPlugin URL Username Password in
  let c := Client_Use plug c in
  let c := Client_Use (TimeoutAll {| Timeouts_Request := 15 * Second;
                                     Timeouts_TLS := 5 * Second;
                                     Timeouts_Dial := 5 * Second;
                                     Timeouts_KeepAlive := 15 * Second |}) c in
  ({| cli := c |}, prov).

(** [func doJSON(req *gentleman.Request, dest interface{}) error], with
    the value of [dest] after the call. *)
Definition doJSON {A} (c : client) (req : Request)
    (decode : Body → A → A * option string) (dest : A) : M (A * option error) :=
  r ← Do run_Plugin (cli c) req;
  match r with
  | inl err => mret (dest, Some err)
  | inr resp =>
      if Ok resp then mret (Response_JSON decode resp dest)
      else mret (dest, Some (parseErrorResponse resp))
  end.

Definition users_path : string := "/api/v2/users".

(** The request that [GetUsers] builds. *)
Definition GetUsers_request (c : client) (input : GetUsersInput) : Request :=
  let req := Client_Request (cli c) in
  let req := Request_Path users_path req in
  let req := if bool_decide (Offset input > 0)
             then Request_SetQuery "offset" (GoInt.Itoa (Offset input)) req
             else req in
  let req := if bool_decide (Limit input > 0)
             then Request_SetQuery "limit" (GoInt.Itoa (Limit input)) req
             else req in
  if bool_decide (Order input ≠ "")
  then Request_SetQuery "order" (Order input) req
  else req.

(** [func (c *client) GetUsers(input GetUsersInput) (Users, error)] *)
Definition GetUsers (c : client) (input : GetUsersInput) : M (Users * option error) :=
  '(users, err) ← doJSON c (GetUsers_request c input) json_Users [];
  match err with
  | Some e => mret ([], Some e)
  | None => mret (users, None)
  end.

(** [Input.Offset += Input.Limit] *)
Definition next_page (Input : GetUsersInput) : GetUsersInput :=
  {| Offset := GoInt.add (Offset Input) (Limit Input);
     Limit := Limit Input; Order := Order Input |}.

(** The [for] loop of [GetAllUsers].  The loop has no bound of its own;
    [fuel] bounds the number of turns the model follows, and [None]
    means that the loop was still running when the fuel ran out. *)
Fixpoint GetAllUsers_loop (fuel : nat) (c : client) (Input : GetUsersInput)
    (all : Users) (w : World) : option ((Users * option error) * World) :=
  match fuel with
  | O => None
  | S fuel' =>
      let '((page, err), w') := GetUsers c Input w in
      match err with
      | Some e => Some (([], Some e), w')
      | None =>
          let all := all ++ page in
          if bool_decide (GoInt.len page < Limit Input)
          then Some ((all, None), w')
          else GetAllUsers_loop fuel' c (next_page Input) all w'
      end
  end.

Definition first_page : GetUsersInput :=
  {| Offset := 0; Limit := 500; Order := "" |}.

(** [func (c *client) GetAllUsers() (Users, error)] *)
Definition GetAllUsers (fuel : nat) (c : client) (w : World)
    : option ((Users * option error) * World) :=
  GetAllUsers_loop fuel c first_page [] w.

Definition GetUserQuotaScans_request (c : client) : Request :=
  let req := Client_Request (cli c) in
  Request_Path "/api/v2/quota-scans" req.

(** [func (c *client) GetUserQuotaScans() (UserQuotaScans, error)] *)
Definition GetUserQuotaScans (c : client) : M (UserQuotaScans * option error) :=
  '(scans, err) ← doJSON c (GetUserQuotaScans_request c) json_UserQuotaScans [];
  match err with
  | Some e => mret ([], Some e)
  | None => mret (scans, None)
  end.

Definition GetActiveConnections_request (c : client) : Request :=
  let req := Client_Request (cli c) in
  Request_Path "/api/v2/connections" req.

(** [func (c *client) GetActiveConnections() ([]ConnectionStatus, error)] *)
Definition GetActiveConnections (c : client) : M (list ConnectionStatus * option error) :=
  '(connections, err) ← doJSON c (GetActiveConnections_request c) json_ConnectionStatus [];
  match err with
  | Some e => mret ([], Some e)
  | None => mret (connections, None)
  end.

Definition StartUserQuotaScan_request (c : client) (user : User) : Request :=
  let req := Client_Request (cli c) in
  let req := Request_Method "POST" req in
  let req := Request_Path "/api/v2/quota-scans" req in
  Request_JSON user req.

(** [func (c *client) StartUserQuotaScan(User User) error] *)
Definition StartUserQuotaScan (c : client) (user : User) : M (option error) :=
  r ← Do run_Plugin (cli c) (StartUserQuotaScan_request c user);
  match r with
  | inl err => mret (Some err)
  | inr resp =>
      if Ok resp then mret None
      else mret (Some (parseErrorResponse resp))
  end.

Definition TerminateActiveConnection_request (c : client) (connectionID : string) : Request :=
  let req := Client_Request (cli c) in
  let req := Request_Method "DELETE" req in
  Request_Path ("/api/v2/connections/" +:+ connectionID) req.

(** Modelled from the spec: [TerminateActiveConnection] is called by
    client_test.go and its source file is missing.  The spec gives it as
    "DELETE to a per-connection endpoint; success is 2xx", the endpoint
    being [/api/v2/connections/{id}], with every non-2xx response going
    through the shared classification of errors and every error of the
    transport surfaced as it is. *)
Definition TerminateActiveConnection (c : client) (connectionID : string) : M (option error) :=
  r ← Do run_Plugin (cli c) (TerminateActiveConnection_request c connectionID);
  match r with
  | inl err => mret (Some err)
  | inr resp =>
      if Ok resp then mret None
      else mret (Some (parseErrorResponse resp))
  end.

(** *** The single-request methods of [type Client interface] *)

(** The request a call builds, and the error it returns. *)
Definition request_of (c : client) (op : Operation) : Request :=
  match op with
  | Call_GetUsers input => GetUsers_request c input
  | Call_GetUserQuotaScans => GetUserQuotaScans_request c
  | Call_StartUserQuotaScan user => StartUserQuotaScan_request c user
  | Call_GetActiveConnections => GetActiveConnections_request c
  end.

Definition call (c : client) (op : Operation) : M (option error) :=
  match op with
  | Call_GetUsers input => r ← GetUsers c input; mret r.2
  | Call_GetUserQuotaScans => r ← GetUserQuotaScans c; mret r.2
  | Call_StartUserQuotaScan user => StartUserQuotaScan c user
  | Call_GetActiveConnections => r ← GetActiveConnections c; mret r.2
  end.

(** What the token plugin makes of a request once it holds a token. *)
Definition authorized (token : string) (req : Request) : Request :=
  Request_Header_Set "Authorization" ("Bearer " +:+ token) req.

End Operations.

(** ** Runs of the pagination loop *)

Section Runs.
Context `{Remote}.

(** The input of the call number [k] of [GetAllUsers], counting from
    zero: the offset has been advanced [k] times by the page size. *)
Definition page_input (k : nat) : GetUsersInput :=
  {| Offset := GoInt.wrap (500 * Z.of_nat k); Limit := 500; Order := "" |}.

(** [full_pages c k w pages w']: from the world [w], the calls number
    [k], [k+1], ... of [GetUsers] succeed one after the other with the
    pages [pages], none of them shorter than the page size, and leave
    the world [w']. *)
Inductive full_pages (c : client) : nat → World → list Users → World → Prop :=
  | full_pages_nil k w : full_pages c k w [] w
  | full_pages_cons k w page w1 pages w2 :
      GetUsers c (page_input k) w = ((page, None), w1) →
      500 ≤ GoInt.len page →
      full_pages c (S k) w1 pages w2 →
      full_pages c k w (page :: pages) w2.

(** The query strings of the requests for the list of users among the
    requests of a log. *)
Definition users_calls (l : list Request) : list (gmap string string) :=
  Query <$> List.filter (λ r, String.eqb (Path r) users_path) l.

(** The call number [k], made in the world [w], ends the loop: it fails
    or its page is shorter than the page size. *)
Definition last_call (c : client) (k : nat) (w : World) : Prop :=
  (GetUsers c (page_input k) w).1.2 ≠ None
  ∨ GoInt.len (GetUsers c (page_input k) w).1.1 < 500.

(** [GetAllUsers] returns from the world [w]: some amount of fuel is
    enough for the loop to end. *)
Definition returns (c : client) (w : World) : Prop :=
  ∃ fuel, GetAllUsers fuel c w ≠ None.

End Runs.

(** ** A mock of the environment

    In the manner of the mock that client_test.go installs: a list of
    expectations, each matching a method and a path and carrying its
    reply.  An expectation is used up by the request it answers unless it
    persists; a request that matches none fails in the transport.  Bodies
    are kept as the values they encode. *)

Module Mock.

Inductive body : Type :=
  | JSON_token (access_token : string) (expires_at : Time)
  | JSON_users (users : Users)
  | JSON_scans (scans : UserQuotaScans)
  | JSON_connections (connections : list ConnectionStatus)
  | JSON_error (e : apiError)
  | NotJSON (text : string).

Record expectation : Type := {
  on_Method : string;
  on_Path : string;
  Persist : bool;
  Reply : string + Response body
}.

Record state : Type := {
  now : Time;
  pending : list expectation
}.

Definition matches (x : expectation) (req : Request) : bool :=
  String.eqb (on_Method x) (Method req) && String.eqb (on_Path x) (Path req).

Fixpoint dispatch (xs : list expectation) (req : Request)
    : option ((string + Response body) * list expectation) :=
  match xs with
  | [] => None
  | x :: xs' =>
      if matches x req
      then Some (Reply x, if Persist x then xs else xs')
      else '(r, rest) ← dispatch xs' req; Some (r, x :: rest)
  end.

Definition serve (st : state) (req : Request) : state * (string + Response body) :=
  match dispatch (pending st) req with
  | Some (r, xs) => ({| now := now st; pending := xs |}, r)
  | None => (st, inl "mock: cannot match any request")
  end.

Definition syntax_error : string := "invalid character looking for beginning of value".
Definition type_error : string := "json: cannot unmarshal value into Go value".

Definition decode_apiError (b : body) (dest : apiError) : apiError * option string :=
  match b with
  | JSON_error e => (e, None)
  | NotJSON _ => (dest, Some syntax_error)
  | JSON_token _ _ => (dest, None)
  | _ => (dest, Some type_error)
  end.

Definition decode_tokenProvider (b : body) (dest : tokenProvider) : tokenProvider * option string :=
  match b with
  | JSON_token v e =>
      ({| Value := v; Expires := e; Client := Client dest;
          tokenProvider_Username := tokenProvider_Username dest;
          tokenProvider_Password := tokenProvider_Password dest |}, None)
  | NotJSON _ => (dest, Some syntax_error)
  | JSON_error _ => (dest, None)
  | _ => (dest, Some type_error)
  end.

Definition decode_list {A} (get : body → option (list A)) (b : body) (dest : list A)
    : list A * option string :=
  match get b, b with
  | Some l, _ => (l, None)
  | None, NotJSON _ => (dest, Some syntax_error)
  | None, _ => (dest, Some type_error)
  end.

Definition remote : Remote :=
  {| Env := state;
     Body := body;
     roundTrip := serve;
     clock := now;
     json_apiError := decode_apiError;
     json_tokenProvider := decode_tokenProvider;
     json_Users := decode_list (λ b, match b with JSON_users l => Some l | _ => None end);
     json_UserQuotaScans := decode_list (λ b, match b with JSON_scans l => Some l | _ => None end);
     json_ConnectionStatus := decode_list (λ b, match b with JSON_connections l => Some l | _ => None end) |}.

(** [mock.New(..).Get(path).Reply(status)] with a body, and its
    persistent variant *)
Definition reply (method path : string) (status : Z) (b : body) : expectation :=
  {| on_Method := method; on_Path := path; Persist := false;
     Reply := inr {| StatusCode := status; RespBody := b |} |}.

Definition always (method path : string) (status : Z) (b : body) : expectation :=
  {| on_Method := method; on_Path := path; Persist := true;
     Reply := inr {| StatusCode := status; RespBody := b |} |}.

(** The client of client_test.go: no plugin but the mock. *)
Definition bare_client : client :=
  {| cli := Client_URL "http://localhost" gentleman_New |}.

(** The client and the provider of [NewClient]. *)
Definition new_client : client :=
  (NewClient "http://localhost" "admin" "secret").1.
Definition new_provider : tokenProvider :=
  (NewClient "http://localhost" "admin" "secret").2.

Definition world (st : state) (t : tokenProvider) : @World remote :=
  {| env := (st : @Env remote); provider := t; log := [] |}.

(** A page of [n] records with the identifiers [first], [first+1], ... *)
Definition page (first : Z) (n : nat) : Users :=
  (λ i : nat, User_with_ID (first + Z.of_nat i)) <$> seq 0 n.

(** *** Scenarios *)

Definition token_ok : expectation :=
  always "GET" "/api/v2/token" 200 (JSON_token "tok1" (5000 * Second)).

(** A provider whose cached token is good until the instant 5000 s. *)
Definition cached_provider : tokenProvider :=
  {| Value := "tok1"; Expires := 5000 * Second; Client := Client new_provider;
     tokenProvider_Username := "admin"; tokenProvider_Password := "secret" |}.

(** The token endpoint answers; nothing else is expected. *)
Definition token_only : state :=
  {| now := 1000 * Second; pending := [token_ok] |}.

(** The token endpoint refuses the credentials. *)
Definition token_refused : state :=
  {| now := 1000 * Second;
     pending := [always "GET" "/api/v2/token" 401 (NotJSON "")] |}.

(** A page of 500 records, then a page of 10. *)
Definition two_pages : state :=
  {| now := 1000 * Second;
     pending := [token_ok;
                 reply "GET" "/api/v2/users" 200 (JSON_users (page 1 500));
                 reply "GET" "/api/v2/users" 200 (JSON_users (page 501 10))] |}.

(** A page of 500 records, then an error of the server. *)
Definition page_then_error : state :=
  {| now := 1000 * Second;
     pending := [token_ok;
                 reply "GET" "/api/v2/users" 200 (JSON_users (page 1 500));
                 reply "GET" "/api/v2/users" 500
                   (JSON_error {| Message := "database unavailable"; Err := "" |})] |}.

(** Every request for the list is answered with the same 500 records. *)
Definition endless : state :=
  {| now := 1000 * Second;
     pending := [token_ok;
                 always "GET" "/api/v2/users" 200 (JSON_users (page 1 500))] |}.

(** The two expectations of [TestClient_TerminateActiveConnection]. *)
Definition connections : state :=
  {| now := 1000 * Second;
     pending := [reply "DELETE" "/api/v2/connections/SFTP_001" 200 (NotJSON "");
                 reply "DELETE" "/api/v2/connections/SFTP_002" 401 (NotJSON "")] |}.

(** The server no longer knows the connection, whenever it is asked. *)
Definition terminated : state :=
  {| now := 1000 * Second;
     pending := [always "DELETE" "/api/v2/connections/SFTP_003" 404
                   (JSON_error {| Message := "connection not found"; Err := "" |})] |}.

Definition negative_input : GetUsersInput :=
  {| Offset := -1; Limit := -1; Order := "" |}.

(** A gateway in front of the server answers with a page of HTML. *)
Definition bad_gateway : Response body :=
  {| StatusCode := 502; RespBody := NotJSON "<html>502 Bad Gateway</html>" |}.

Definition bad_request : Response body :=
  {| StatusCode := 400;
     RespBody := JSON_error {| Message := ""; Err := "bad request" |} |}.

End Mock.

(** ** Quota scans *)

Definition Millisecond : Duration := 1000000.

(** [a * b] on [int64] *)
Definition int64_mul (a b : Z) : Z := GoInt.wrap (a * b).

(** [time.Unix(sec, nsec)]: the instant [sec] seconds and [nsec]
    nanoseconds after the epoch, for any [nsec]. *)
Definition Time_Unix (sec nsec : Z) : Time := sec * Second + nsec.

(** [func (Scan UserQuotaScan) Time() time.Time] *)
Definition UserQuotaScan_Time (Scan : UserQuotaScan) : Time :=
  Time_Unix 0 (int64_mul (Start Scan) 1000000).

(** ** Notions for the properties of requests *)

(** Two requests that differ in the [Authorization] header at most. *)
Definition same_but_Authorization (req req' : Request) : Prop :=
  Method req' = Method req
  ∧ BaseURL req' = BaseURL req
  ∧ Path req' = Path req
  ∧ Query req' = Query req
  ∧ BasicAuth req' = BasicAuth req
  ∧ JSONBody req' = JSONBody req
  ∧ ∀ k, k ≠ "Authorization" → Header req' !! k = Header req !! k.

(** A request that reads: a GET without a body, for the token or for the
    list of users. *)
Definition reads_only (req : Request) : Prop :=
  Method req = "GET"
  ∧ JSONBody req = None
  ∧ (Path req = "/api/v2/token" ∨ Path req = "/api/v2/users").

(** The requests of a log that are no refresh requests. *)
Definition api_requests (l : list Request) : list Request :=
  List.filter (λ r, negb (String.eqb (Path r) "/api/v2/token")) l.

(** What [GetUsers] keeps of its input: an offset or a limit that is not
    positive counts as zero. *)
Definition effective_input (input : GetUsersInput) : GetUsersInput :=
  {| Offset := Z.max 0 (Offset input);
     Limit := Z.max 0 (Limit input);
     Order := Order input |}.

Section Outcomes.
Context `{Remote}.

(** What a method that lists records makes of the dispatch of its request
    [req], for the decoder [decode] of its records: the world is the one
    the dispatch left; there is no error exactly when the response is a
    2xx whose body decodes, and then the records are those the decoder
    built from the nil list; with an error the list is nil. *)
Definition list_outcome {A} (c : client) (req : Request)
    (decode : Body → list A → list A * option string)
    (w : World) (result : (list A * option error) * World) : Prop :=
  result.2 = (Do run_Plugin (cli c) req w).2
  ∧ (result.1.2 = None
     ↔ ∃ resp, (Do run_Plugin (cli c) req w).1 = inr resp
         ∧ Ok resp = true
         ∧ (decode (RespBody resp) []).2 = None)
  ∧ (∀ resp, (Do run_Plugin (cli c) req w).1 = inr resp →
       Ok resp = true →
       (decode (RespBody resp) []).2 = None →
       result.1.1 = (decode (RespBody resp) []).1)
  ∧ (∀ resp msg, (Do run_Plugin (cli c) req w).1 = inr resp →
       Ok resp = true →
       (decode (RespBody resp) []).2 = Some msg →
       result.1 = ([], Some (DecodeError msg)))
  ∧ (∀ resp, (Do run_Plugin (cli c) req w).1 = inr resp →
       Ok resp = false →
       result.1 = ([], Some (parseErrorResponse resp)))
  ∧ (∀ err, (Do run_Plugin (cli c) req w).1 = inl err →
       result.1 = ([], Some err)).

End Outcomes.

(** Further scenarios for the mock. *)
Module Scenarios.

(** The token endpoint answers and a quota scan can be started once. *)
Definition quota_scan : Mock.state :=
  {| Mock.now := 1000 * Second;
     Mock.pending :=
       [Mock.token_ok;
        Mock.reply "POST" "/api/v2/quota-scans" 202 (Mock.NotJSON "");
        Mock.reply "GET" "/api/v2/quota-scans" 200
          (Mock.JSON_scans [{| UserQuotaScan_Username := "alice";
                               Start := 1600000000000 |}])] |}.

Definition alice : User := User_with_ID 7.

End Scenarios.

(** ** Proof automation *)

(** The outcomes of a refresh request: the transport fails, the response
    is no 2xx, its body does not decode, or the token is there.  The
    tactic closes a goal that holds in each of them by computation. *)
Ltac refresh_cases :=
  match goal with
  | |- context [roundTrip ?e ?req] =>
      destruct (roundTrip e req) as [? [?|?resp]]; [done|]
  end;
  match goal with
  | |- context [Ok ?resp] => destruct (Ok resp); [|done]
  end;
  match goal with
  | |- context [json_tokenProvider ?b ?t] =>
      destruct (json_tokenProvider b t) as [? [?|]]; done
  end.

(** * Properties *)

(** ** Machine integers *)

Lemma wrap_in_range (z : Z) : GoInt.in_range z → GoInt.wrap z = z.
Proof.
  unfold GoInt.in_range, GoInt.wrap, GoInt.MinInt, GoInt.MaxInt, GoInt.bits.
  intros Hz. rewrite Z.mod_small; lia.
Qed.

Lemma wrap_add_wrap (a b : Z) : GoInt.wrap (GoInt.wrap a + b) = GoInt.wrap (a + b).
Proof.
  unfold GoInt.wrap. f_equal.
  replace ((a - GoInt.MinInt) `mod` 2 ^ GoInt.bits + GoInt.MinInt + b - GoInt.MinInt)
    with ((a - GoInt.MinInt) `mod` 2 ^ GoInt.bits + b) by lia.
  rewrite Zplus_mod_idemp_l. f_equal. lia.
Qed.

(** [Itoa] writes the number in decimal: reading the digits back gives
    the number. *)
Lemma Atoi_Itoa (z : Z) : GoInt.Atoi (GoInt.Itoa z) = Some z.
Proof.
  unfold GoInt.Atoi, GoInt.Itoa.
  rewrite NilZero.isi.
  - simpl. f_equal. apply DecimalZ.of_to.
  - destruct z; simpl; try discriminate.
    intros [= Hp]. by apply DecimalPos.Unsigned.to_uint_nonnil in Hp.
  - destruct z; simpl; try discriminate.
    intros [= Hp]. by apply DecimalPos.Unsigned.to_uint_nonnil in Hp.
Qed.

Lemma page_input_next (k : nat) : next_page (page_input k) = page_input (S k).
Proof.
  unfold next_page, page_input, GoInt.add; simpl. f_equal.
  rewrite wrap_add_wrap. f_equal. lia.
Qed.

Lemma page_input_0 : page_input 0 = first_page.
Proof. reflexivity. Qed.

(** As long as [500 * k] fits an [int], the offset of call [k] is
    [500 * k]. *)
Lemma page_input_Offset (k : nat) :
  500 * Z.of_nat k ≤ GoInt.MaxInt → Offset (page_input k) = 500 * Z.of_nat k.
Proof.
  intros Hk. simpl. apply wrap_in_range.
  unfold GoInt.in_range, GoInt.MinInt, GoInt.bits in *. lia.
Qed.

(** ** [Users.Filter] *)

Section FilterProperties.
Variable f : UserFilterFunc.

Lemma Filter_loop (acc users : Users) :
  foldl (Filter_step f) acc users = acc ++ List.filter f users.
Proof.
  revert acc. induction users as [|u users IH]; intros acc; simpl.
  - by rewrite app_nil_r.
  - rewrite IH. unfold Filter_step. destruct (f u); simpl.
    + by rewrite <- app_assoc.
    + done.
Qed.

Lemma Filter_filter (users : Users) : Filter users f = List.filter f users.
Proof. unfold Filter. by rewrite Filter_loop. Qed.

Lemma Filter_nil : Filter [] f = [].
Proof. reflexivity. Qed.

Lemma Filter_cons (u : User) (users : Users) :
  Filter (u :: users) f = if f u then u :: Filter users f else Filter users f.
Proof. rewrite !Filter_filter. reflexivity. Qed.

Lemma Filter_sublist (users : Users) : sublist (Filter users f) users.
Proof.
  induction users as [|u users IH]; [constructor|].
  rewrite Filter_cons. destruct (f u); by constructor.
Qed.

Lemma Filter_Forall (users : Users) : Forall (λ u, f u = true) (Filter users f).
Proof.
  induction users as [|u users IH]; [constructor|].
  rewrite Filter_cons. destruct (f u) eqn:Hu; [by constructor|done].
Qed.

(** Nothing that satisfies the predicate is dropped: every subsequence
    of the input made of satisfying records is a subsequence of the
    result. *)
Lemma Filter_greatest (l users : Users) :
  sublist l users → Forall (λ u, f u = true) l → sublist l (Filter users f).
Proof.
  induction 1 as [|u l users Hs IH|u l users Hs IH]; intros Hl.
  - constructor.
  - inversion Hl as [|? ? Hu Hl']; subst.
    rewrite Filter_cons, Hu. constructor. by apply IH.
  - rewrite Filter_cons. destruct (f u); [constructor|]; by apply IH.
Qed.

End FilterProperties.

(** C9. For every list of users and every predicate, [Filter] returns the
    subsequence of the records that satisfy the predicate: it is a
    subsequence of the input (order and records as they were), all its
    records satisfy the predicate, it contains every subsequence of
    satisfying records, and a record is in it exactly when it is in the
    input and satisfies the predicate.  The function is pure: its result
    depends on the list and the predicate only.  On [{ID:1},{ID:2}] with
    the predicate [ID > 1] the result is [{ID:2}]. *)
Theorem Filter_subsequence :
  (∀ (users : Users) (f : UserFilterFunc),
      Filter users f = List.filter f users
      ∧ sublist (Filter users f) users
      ∧ Forall (λ u, f u = true) (Filter users f)
      ∧ (∀ l, sublist l users → Forall (λ u, f u = true) l → sublist l (Filter users f))
      ∧ (∀ u, u ∈ Filter users f ↔ u ∈ users ∧ f u = true))
  ∧ Filter [User_with_ID 1; User_with_ID 2] (λ user, bool_decide (ID user > 1))
    = [User_with_ID 2].
Proof.
  split; [|reflexivity].
  intros users f. split_and!.
  - apply Filter_filter.
  - apply Filter_sublist.
  - apply Filter_Forall.
  - intros l. apply Filter_greatest.
  - intros u. rewrite Filter_filter, !list_elem_of_In, List.filter_In. done.
Qed.

(** ** The token provider *)

Section TokenProperties.
Context `{Remote}.

(** Timeout plugins let every request through and touch nothing. *)
Lemma run_middleware_Timeouts (ps : list Timeouts) (req : Request) (w : World) :
  run_middleware run_Timeouts ps req w = (h_Next req, w).
Proof. induction ps as [|p ps IH]; [done|]. simpl. exact IH. Qed.

(** On the provider's own client [req.Do()] is the transport itself. *)
Lemma Do_Timeouts (c : gentleman_Client Timeouts) (req : Request) (w : World) :
  Do run_Timeouts c req w = send req w.
Proof.
  unfold Do, mbind, M_bind. by rewrite run_middleware_Timeouts.
Qed.

(** The two branches of [Token], each with its outcome. *)
Lemma Token_fresh (w : World) :
  Time_After (Expires (provider w)) (Time_Add (clock (env w)) (Second * 10)) = true →
  Token w = ((Value (provider w), None), w).
Proof.
  intros Hfresh. unfold Token, mbind, M_bind, get_provider, time_Now.
  by rewrite Hfresh.
Qed.

Lemma Token_stale (w : World) :
  Time_After (Expires (provider w)) (Time_Add (clock (env w)) (Second * 10)) = false →
  Token w =
    let t := provider w in
    let '(e', r) := roundTrip (env w) (token_request t) in
    match r with
    | inl msg => (("", Some (TransportError msg)), refreshed w e' t)
    | inr resp =>
        if Ok resp then
          let '(t', failure) := json_tokenProvider (RespBody resp) t in
          match failure with
          | Some msg => (("", Some (DecodeError msg)), refreshed w e' t')
          | None => ((Value t', None), refreshed w e' t')
          end
        else (("", Some (parseErrorResponse resp)), refreshed w e' t)
    end.
Proof.
  intros Hstale. unfold Token, mbind, M_bind, get_provider, time_Now.
  rewrite Hstale, Do_Timeouts. unfold send, refreshed. simpl.
  destruct (roundTrip (env w) (token_request (provider w))) as [e' [msg|resp]];
    [done|].
  destruct (Ok resp); [|done].
  unfold Response_JSON, put_provider. simpl.
  destruct (json_tokenProvider (RespBody resp) (provider w)) as [t' [msg|]];
    done.
Qed.

(** [Token] sends nothing or one request, and that one to the token
    endpoint. *)
Lemma Token_log (w : World) :
  log (Token w).2 = log w
  ∨ log (Token w).2 = log w ++ [token_request (provider w)].
Proof.
  destruct (Time_After (Expires (provider w))
              (Time_Add (clock (env w)) (Second * 10))) eqn:Hcase.
  - left. by rewrite Token_fresh.
  - right. rewrite Token_stale by done. simpl.
    refresh_cases.
Qed.

End TokenProperties.

(** C2. When the cached expiry is more than ten seconds after the current
    time, [Token] returns the cached value without an error and leaves the
    world as it was: the log of requests has not grown, so no request was
    made, and the provider's cache is the same. *)
Theorem Token_reuses_cached `{Remote} (w : World) :
  clock (env w) + 10 * Second < Expires (provider w) →
  Token w = ((Value (provider w), None), w)
  ∧ log (Token w).2 = log w
  ∧ provider (Token w).2 = provider w.
Proof.
  intros Hlate.
  assert (Token w = ((Value (provider w), None), w)) as HT.
  { apply Token_fresh. unfold Time_After, Time_Add.
    apply bool_decide_eq_true. lia. }
  by rewrite HT.
Qed.

(** C3. When the cached expiry is at most ten seconds after the current
    time, [Token] hands exactly one request to the transport before it
    returns: the request to [/api/v2/token] of the provider's client, with
    the provider's user name and password as Basic credentials.  When the
    transport answers with a 2xx response whose body decodes, the decoded
    provider replaces the cached one and its value is returned. *)
Theorem Token_refreshes_once `{Remote} (w : World) :
  Expires (provider w) ≤ clock (env w) + 10 * Second →
  let t := provider w in
  let req := token_request t in
  Path req = "/api/v2/token"
  ∧ BaseURL req = URL (Client t)
  ∧ BasicAuth req = Some (tokenProvider_Username t, tokenProvider_Password t)
  ∧ log (Token w).2 = log w ++ [req]
  ∧ env (Token w).2 = (roundTrip (env w) req).1
  ∧ (∀ resp t',
        (roundTrip (env w) req).2 = inr resp →
        Ok resp = true →
        json_tokenProvider (RespBody resp) t = (t', None) →
        (Token w).1 = (Value t', None)
        ∧ provider (Token w).2 = t').
Proof.
  intros Hsoon. cbv zeta.
  assert (Time_After (Expires (provider w))
            (Time_Add (clock (env w)) (Second * 10)) = false) as Hstale.
  { unfold Time_After, Time_Add. apply bool_decide_eq_false. lia. }
  rewrite (Token_stale w Hstale). cbv zeta.
  destruct (roundTrip (env w) (token_request (provider w))) as [e' r] eqn:Hrt.
  split_and!; try reflexivity.
  - destruct r as [msg|resp]; [done|].
    destruct (Ok resp); [|done].
    destruct (json_tokenProvider _ _) as [t' [msg|]]; done.
  - destruct r as [msg|resp]; [done|].
    destruct (Ok resp); [|done].
    destruct (json_tokenProvider _ _) as [t' [msg|]]; done.
  - intros resp t' Hr Hok Hdec. simpl in Hr. subst r.
    rewrite Hok, Hdec. done.
Qed.

(** ** Classification of error responses *)

Section ErrorProperties.
Context `{Remote}.

Lemma parseErrorResponse_401 (resp : Response Body) :
  StatusCode resp = 401 → parseErrorResponse resp = ErrUnauthorized.
Proof.
  intros Hs. unfold parseErrorResponse, StatusUnauthorized.
  by rewrite bool_decide_eq_true_2.
Qed.

Lemma parseErrorResponse_403 (resp : Response Body) :
  StatusCode resp = 403 → parseErrorResponse resp = ErrForbidden.
Proof.
  intros Hs. unfold parseErrorResponse, StatusUnauthorized, StatusForbidden.
  rewrite bool_decide_eq_false_2 by lia. by rewrite bool_decide_eq_true_2.
Qed.

Lemma parseErrorResponse_other (resp : Response Body) :
  StatusCode resp ≠ 401 → StatusCode resp ≠ 403 →
  parseErrorResponse resp =
    match json_apiError (RespBody resp) zero_apiError with
    | (a, None) => APIError a
    | (_, Some msg) => DecodeError msg
    end.
Proof.
  intros H401 H403. unfold parseErrorResponse, StatusUnauthorized, StatusForbidden.
  rewrite !bool_decide_eq_false_2 by done. unfold Response_JSON.
  by destruct (json_apiError _ _) as [a [msg|]].
Qed.

Lemma apiError_Error_spec (a : apiError) :
  (Err a ≠ "" → apiError_Error a = Err a)
  ∧ (Err a = "" → apiError_Error a = Message a).
Proof.
  unfold apiError_Error. split; intros He.
  - by rewrite bool_decide_eq_true_2.
  - by rewrite bool_decide_eq_false_2 by auto.
Qed.

End ErrorProperties.

(** C4, as amended.  [parseErrorResponse] gives the Unauthorized sentinel
    for status 401 and the Forbidden sentinel for status 403.  For any
    other status it decodes the body: when the body decodes, the decoded
    [{message, error}] object is the error, it is no sentinel, and its
    message is the [error] field if that is not empty and the [message]
    field otherwise; when the body does not decode, the error is the
    failure of the decoder. *)
Theorem parseErrorResponse_classifies `{Remote} (resp : Response Body) :
  (StatusCode resp = 401 → parseErrorResponse resp = ErrUnauthorized)
  ∧ (StatusCode resp = 403 → parseErrorResponse resp = ErrForbidden)
  ∧ (StatusCode resp ≠ 401 → StatusCode resp ≠ 403 →
       (∀ a, json_apiError (RespBody resp) zero_apiError = (a, None) →
          parseErrorResponse resp = APIError a
          ∧ is_sentinel (parseErrorResponse resp) = false
          ∧ (Err a ≠ "" → Error (parseErrorResponse resp) = Err a)
          ∧ (Err a = "" → Error (parseErrorResponse resp) = Message a))
       ∧ (∀ a msg, json_apiError (RespBody resp) zero_apiError = (a, Some msg) →
          parseErrorResponse resp = DecodeError msg)).
Proof.
  split_and!.
  - apply parseErrorResponse_401.
  - apply parseErrorResponse_403.
  - intros H401 H403. rewrite (parseErrorResponse_other resp H401 H403).
    split.
    + intros a Ha. rewrite Ha. simpl. split_and!; [done..| |];
        apply apiError_Error_spec.
    + intros a msg Ha. by rewrite Ha.
Qed.

(** ** The token plugin and the dispatch of requests *)

Section PluginProperties.
Context `{Remote}.

Lemma TokenPlugin_handler_Token (req : Request) (w : World) :
  TokenPlugin_handler req w =
    match (Token w).1.2 with
    | None => (h_Next (authorized (Token w).1.1 req), (Token w).2)
    | Some e => (h_Error e, (Token w).2)
    end.
Proof.
  unfold TokenPlugin_handler, mbind, M_bind.
  destruct (Token w) as [[token [e|]] w1]; done.
Qed.

(** A client with the token plugin does not let a request through when
    the token cannot be had, however many timeout plugins come first. *)
Lemma Do_aborts (ps : list Plugin) (req : Request) (w : World) (e : error) :
  TokenPlugin ∈ ps →
  (Token w).1.2 = Some e →
  run_middleware run_Plugin ps req w = (h_Error e, (Token w).2).
Proof.
  intros Hin Hfail. induction ps as [|p ps IH]; [by apply not_elem_of_nil in Hin|].
  destruct p as [t|].
  - simpl. unfold mbind, M_bind, run_Timeouts, mret, M_ret.
    apply IH. apply elem_of_cons in Hin as [Hp|Hin]; [discriminate|done].
  - simpl. unfold mbind, M_bind. rewrite TokenPlugin_handler_Token, Hfail. done.
Qed.

(** [req.Do()] on the client of [NewClient]. *)
Lemma Do_NewClient (URL Username Password : string) (req : Request) (w : World) :
  Do run_Plugin (cli (NewClient URL Username Password).1) req w =
    match (Token w).1.2 with
    | None => send (authorized (Token w).1.1 req) (Token w).2
    | Some e => (inl e, (Token w).2)
    end.
Proof.
  unfold Do, mbind, M_bind. simpl. unfold mbind, M_bind.
  rewrite TokenPlugin_handler_Token.
  destruct ((Token w).1.2) as [e|]; done.
Qed.

(** A failing [Token] has made its one request. *)
Lemma Token_failure_log (w : World) (e : error) :
  (Token w).1.2 = Some e →
  log (Token w).2 = log w ++ [token_request (provider w)].
Proof.
  intros Hfail. destruct (Token_log w) as [Hlog|Hlog]; [|done].
  destruct (Time_After (Expires (provider w))
              (Time_Add (clock (env w)) (Second * 10))) eqn:Hcase.
  - rewrite Token_fresh in Hfail by done. discriminate.
  - rewrite Token_stale in Hlog |- * by done. simpl.
    refresh_cases.
Qed.

Lemma send_log (req : Request) (w : World) :
  log (send req w).2 = log w ++ [req].
Proof. unfold send. by destruct (roundTrip _ _). Qed.

(** Every single-request method hands its request to [req.Do()] and
    changes the world in no other way. *)
Lemma call_world (c : client) (op : Operation) (w : World) :
  (call c op w).2 = (Do run_Plugin (cli c) (request_of c op) w).2.
Proof.
  destruct op as [input| |user|]; simpl;
    unfold GetUsers, GetUserQuotaScans, GetActiveConnections,
      StartUserQuotaScan, doJSON, mbind, M_bind;
    destruct (Do run_Plugin _ _ w) as [[err|resp] w1]; simpl; try done;
    destruct (Ok resp); simpl; try done;
    unfold Response_JSON;
    match goal with |- context [?dec (RespBody resp) []] =>
      destruct (dec (RespBody resp) []) as [d [msg|]] end; done.
Qed.

(** An error of [req.Do()] is the error of the method. *)
Lemma call_Do_error (c : client) (op : Operation) (w : World) (e : error) :
  (Do run_Plugin (cli c) (request_of c op) w).1 = inl e →
  (call c op w).1 = Some e.
Proof.
  intros Herr.
  destruct op as [input| |user|]; simpl in *;
    unfold GetUsers, GetUserQuotaScans, GetActiveConnections,
      StartUserQuotaScan, doJSON, mbind, M_bind;
    destruct (Do run_Plugin _ _ w) as [[err|resp] w1]; simpl in *;
    by simplify_eq.
Qed.

End PluginProperties.

(** C6. On the client of [NewClient], whatever the operation: when
    [Token] fails, the plugin ends the request with [h.Error], [req.Do()]
    returns the error of [Token] and so does the operation, and the world
    is the one [Token] left, in which the only new request is the refresh
    request of [Token] itself: the request of the operation never reached
    the transport.  When [Token] succeeds with [token], the plugin passes
    the request on with the header [Authorization: Bearer token], and that
    is the request the transport receives. *)
Theorem token_plugin_guards_requests `{Remote} (URL Username Password : string)
    (w : World) (token : string) (err : option error) (w1 : World) :
  Token w = ((token, err), w1) →
  let c := (NewClient URL Username Password).1 in
  match err with
  | Some e =>
      log w1 = log w ++ [token_request (provider w)]
      ∧ (∀ req, TokenPlugin_handler req w = (h_Error e, w1))
      ∧ (∀ req, Do run_Plugin (cli c) req w = (inl e, w1))
      ∧ (∀ op, call c op w = (Some e, w1))
      ∧ (∀ fuel, GetAllUsers (S fuel) c w = Some (([], Some e), w1))
  | None =>
      (∀ req, TokenPlugin_handler req w = (h_Next (authorized token req), w1))
      ∧ (∀ req, Do run_Plugin (cli c) req w = send (authorized token req) w1)
      ∧ (∀ req, Header (authorized token req) !! "Authorization"
                = Some ("Bearer " +:+ token))
      ∧ (∀ op, log (call c op w).2 = log w1 ++ [authorized token (request_of c op)])
  end.
Proof.
  intros HT. cbv zeta.
  assert (∀ req, Do run_Plugin (cli (NewClient URL Username Password).1) req w =
            match err with
            | None => send (authorized token req) w1
            | Some e => (inl e, w1)
            end) as HDo.
  { intros req. by rewrite Do_NewClient, HT. }
  destruct err as [e|].
  - assert (∀ op, call (NewClient URL Username Password).1 op w = (Some e, w1)) as Hcall.
    { intros op. apply injective_projections.
      - apply call_Do_error. by rewrite HDo.
      - by rewrite call_world, HDo. }
    split_and!.
    + pose proof (Token_failure_log w e) as Hlog. rewrite HT in Hlog. by apply Hlog.
    + intros req. by rewrite TokenPlugin_handler_Token, HT.
    + done.
    + done.
    + intros fuel. unfold GetAllUsers. simpl.
      specialize (Hcall (Call_GetUsers first_page)). simpl in Hcall.
      unfold mbind, M_bind, mret, M_ret in Hcall.
      destruct (GetUsers _ first_page w) as [[page err] w'] eqn:HG.
      simpl in Hcall. by simplify_eq.
  - split_and!.
    + intros req. by rewrite TokenPlugin_handler_Token, HT.
    + done.
    + intros req. simpl. apply lookup_insert_eq.
    + intros op. by rewrite call_world, HDo, send_log.
Qed.

(** ** Building the list request *)

Section RequestProperties.
Context `{Remote}.

Lemma GetUsers_request_Query (c : client) (input : GetUsersInput) :
  Query (GetUsers_request c input) =
    (if bool_decide (Order input ≠ "") then <["order" := Order input]> else id)
      ((if bool_decide (Limit input > 0)
        then <["limit" := GoInt.Itoa (Limit input)]> else id)
         ((if bool_decide (Offset input > 0)
           then <["offset" := GoInt.Itoa (Offset input)]> else id) ∅)).
Proof.
  unfold GetUsers_request.
  destruct (bool_decide (Order input ≠ "")), (bool_decide (Limit input > 0)),
    (bool_decide (Offset input > 0)); reflexivity.
Qed.

Lemma GetUsers_request_Path (c : client) (input : GetUsersInput) :
  Path (GetUsers_request c input) = users_path.
Proof.
  unfold GetUsers_request.
  destruct (bool_decide (Order input ≠ "")), (bool_decide (Limit input > 0)),
    (bool_decide (Offset input > 0)); reflexivity.
Qed.

Lemma GetUsers_request_Method (c : client) (input : GetUsersInput) :
  Method (GetUsers_request c input) = "GET".
Proof.
  unfold GetUsers_request.
  destruct (bool_decide (Order input ≠ "")), (bool_decide (Limit input > 0)),
    (bool_decide (Offset input > 0)); reflexivity.
Qed.

End RequestProperties.

(** C8, as amended.  [GetUsers] dispatches a GET for [/api/v2/users] whose
    query has the parameter [offset] exactly when the offset is positive,
    [limit] exactly when the limit is positive and [order] exactly when
    the order is not empty, and no other parameter; offset and limit are
    written in decimal, and a zero or negative offset or limit is left
    out. *)
Theorem GetUsers_query_parameters `{Remote} (c : client) (input : GetUsersInput) :
  let req := GetUsers_request c input in
  Method req = "GET"
  ∧ Path req = "/api/v2/users"
  ∧ Query req !! "offset"
    = (if decide (0 < Offset input) then Some (GoInt.Itoa (Offset input)) else None)
  ∧ Query req !! "limit"
    = (if decide (0 < Limit input) then Some (GoInt.Itoa (Limit input)) else None)
  ∧ Query req !! "order"
    = (if decide (Order input = "") then None else Some (Order input))
  ∧ (∀ k, k ≠ "offset" → k ≠ "limit" → k ≠ "order" → Query req !! k = None)
  ∧ GoInt.Atoi (GoInt.Itoa (Offset input)) = Some (Offset input)
  ∧ GoInt.Atoi (GoInt.Itoa (Limit input)) = Some (Limit input)
  ∧ (∀ w, (GetUsers c input w).2 = (Do run_Plugin (cli c) req w).2).
Proof.
  cbv zeta. rewrite GetUsers_request_Query.
  split_and!.
  - apply GetUsers_request_Method.
  - apply GetUsers_request_Path.
  - repeat case_bool_decide; case_decide; try lia; by simplify_map_eq.
  - repeat case_bool_decide; case_decide; try lia; by simplify_map_eq.
  - repeat case_bool_decide; case_decide; try done; by simplify_map_eq.
  - intros k Ho Hl Hr. repeat case_bool_decide; by simplify_map_eq.
  - apply Atoi_Itoa.
  - apply Atoi_Itoa.
  - intros w. pose proof (call_world c (Call_GetUsers input) w) as Hw.
    simpl in Hw. unfold mbind, M_bind, mret, M_ret in Hw.
    by destruct (GetUsers c input w) as [r w'].
Qed.

(** ** [TerminateActiveConnection] *)

(** C7.  [TerminateActiveConnection] dispatches a DELETE for
    [/api/v2/connections/{id}].  It returns nil exactly when the dispatch
    gives a response with a status from 200 to 299; a response with any
    other status gives the error of [parseErrorResponse], the
    Unauthorized sentinel for 401; and a call that is answered as an
    earlier call was returns the error of the earlier call.  The function
    is total: every call returns. *)
Theorem TerminateActiveConnection_classifies `{Remote} (c : client)
    (connectionID : string) (w : World) :
  let req := TerminateActiveConnection_request c connectionID in
  let r := Do run_Plugin (cli c) req w in
  Method req = "DELETE"
  ∧ Path req = "/api/v2/connections/" +:+ connectionID
  ∧ (TerminateActiveConnection c connectionID w).2 = r.2
  ∧ ((TerminateActiveConnection c connectionID w).1 = None
     ↔ ∃ resp, r.1 = inr resp ∧ 200 ≤ StatusCode resp < 300)
  ∧ (∀ resp, r.1 = inr resp → ¬ (200 ≤ StatusCode resp < 300) →
       (TerminateActiveConnection c connectionID w).1 = Some (parseErrorResponse resp))
  ∧ (∀ resp, r.1 = inr resp → StatusCode resp = 401 →
       (TerminateActiveConnection c connectionID w).1 = Some ErrUnauthorized)
  ∧ (∀ err, r.1 = inl err →
       (TerminateActiveConnection c connectionID w).1 = Some err)
  ∧ (∀ w', (Do run_Plugin (cli c) req w').1 = r.1 →
       (TerminateActiveConnection c connectionID w').1
       = (TerminateActiveConnection c connectionID w).1).
Proof.
  cbv zeta. unfold TerminateActiveConnection, mbind, M_bind.
  destruct (Do run_Plugin (cli c) _ w) as [[err|resp] w1] eqn:HDo; simpl.
  - split_and!; try done.
    + split; [intros [=]|]. by intros (resp & [=] & _).
    + by intros err' [= ->].
    + intros w' Hsame.
      destruct (Do run_Plugin (cli c) _ w') as [r' w1']. simpl in Hsame.
      by subst r'.
  - unfold Ok. split_and!; try done.
    + by case_bool_decide.
    + case_bool_decide as Hs; simpl.
      * split; [|done]. intros _. by exists resp.
      * split; [intros [=]|]. by intros (resp' & [= <-] & Hs').
    + intros resp' [= <-] Hs. by rewrite bool_decide_eq_false_2.
    + intros resp' [= <-] Hs. rewrite bool_decide_eq_false_2 by lia.
      simpl. by rewrite parseErrorResponse_401.
    + intros w' Hsame.
      destruct (Do run_Plugin (cli c) _ w') as [r' w1']. simpl in Hsame.
      subst r'. by case_bool_decide.
Qed.

(** ** Pagination *)

Section PaginationProperties.
Context `{Remote}.
Variable c : client.

(** One turn of the loop. *)
Lemma GetAllUsers_loop_step (fuel : nat) (Input : GetUsersInput) (all : Users) (w : World) :
  GetAllUsers_loop (S fuel) c Input all w =
    match (GetUsers c Input w).1.2 with
    | Some e => Some (([], Some e), (GetUsers c Input w).2)
    | None =>
        if bool_decide (GoInt.len (GetUsers c Input w).1.1 < Limit Input)
        then Some ((all ++ (GetUsers c Input w).1.1, None), (GetUsers c Input w).2)
        else GetAllUsers_loop fuel c (next_page Input)
               (all ++ (GetUsers c Input w).1.1) (GetUsers c Input w).2
    end.
Proof. simpl. by destruct (GetUsers c Input w) as [[page [e|]] w']. Qed.

(** Full pages are appended and the loop goes on with the next call. *)
Lemma GetAllUsers_loop_full_pages k w pages w1 :
  full_pages c k w pages w1 →
  ∀ fuel all,
    GetAllUsers_loop (length pages + fuel) c (page_input k) all w =
    GetAllUsers_loop fuel c (page_input (k + length pages)) (all ++ concat pages) w1.
Proof.
  induction 1 as [k w|k w page w1 pages w2 Hcall Hfull _ IH]; intros fuel all.
  - simpl. by rewrite Nat.add_0_r, app_nil_r.
  - replace (length (page :: pages) + fuel)%nat
      with (S (length pages + fuel)) by (simpl; lia).
    rewrite GetAllUsers_loop_step, Hcall. simpl.
    rewrite bool_decide_eq_false_2 by lia.
    rewrite page_input_next, IH, app_assoc.
    by replace (S k + length pages)%nat with (k + S (length pages))%nat by lia.
Qed.

Lemma GetUsers_error_nil (input : GetUsersInput) (w : World) (e : error) :
  (GetUsers c input w).1.2 = Some e → (GetUsers c input w).1.1 = [].
Proof.
  unfold GetUsers, mbind, M_bind.
  destruct (doJSON c _ json_Users [] w) as [[users [err|]] w1]; done.
Qed.

(** A run that ends with an error returns the nil list. *)
Lemma GetAllUsers_loop_error_nil fuel Input all w users e w' :
  GetAllUsers_loop fuel c Input all w = Some ((users, Some e), w') → users = [].
Proof.
  revert Input all w. induction fuel as [|fuel IH]; intros Input all w; [done|].
  rewrite GetAllUsers_loop_step.
  destruct ((GetUsers c Input w).1.2) as [e'|].
  - by intros [= <- _ _].
  - case_bool_decide; [done|]. apply IH.
Qed.

(** A run that returns has reached a last call through full pages. *)
Lemma GetAllUsers_loop_returns fuel k all w :
  GetAllUsers_loop fuel c (page_input k) all w ≠ None →
  ∃ pages w1, full_pages c k w pages w1 ∧ last_call c (k + length pages) w1.
Proof.
  revert k all w. induction fuel as [|fuel IH]; intros k all w; [done|].
  rewrite GetAllUsers_loop_step.
  destruct (GetUsers c (page_input k) w) as [[page err] w'] eqn:Hcall. simpl.
  destruct err as [e|].
  - intros _. exists [], w. split; [constructor|].
    simpl. rewrite Nat.add_0_r. left. by rewrite Hcall.
  - case_bool_decide as Hshort.
    + intros _. exists [], w. split; [constructor|].
      simpl. rewrite Nat.add_0_r. right. by rewrite Hcall.
    + rewrite page_input_next. intros Hrest.
      destruct (IH _ _ _ Hrest) as (pages & w1 & Hpages & Hlast).
      exists (page :: pages), w1. split.
      * econstructor; [done|lia|done].
      * simpl. by replace (k + S (length pages))%nat with (S k + length pages)%nat by lia.
Qed.

(** One more turn after the full pages is enough when the next call is
    a last call. *)
Lemma GetAllUsers_loop_last_call fuel k all w :
  last_call c k w → GetAllUsers_loop (S fuel) c (page_input k) all w ≠ None.
Proof.
  intros Hlast. rewrite GetAllUsers_loop_step.
  destruct Hlast as [Herr|Hshort].
  - by destruct ((GetUsers c (page_input k) w).1.2).
  - destruct ((GetUsers c (page_input k) w).1.2); [done|].
    by rewrite bool_decide_eq_true_2.
Qed.

(** A server that keeps answering with full pages keeps the loop
    running. *)
Lemma GetAllUsers_loop_forever (Inv : World → Prop) :
  (∀ k w, Inv w → ∃ page w1,
      GetUsers c (page_input k) w = ((page, None), w1)
      ∧ GoInt.len page = 500 ∧ Inv w1) →
  ∀ fuel k all w, Inv w → GetAllUsers_loop fuel c (page_input k) all w = None.
Proof.
  intros Hserve. induction fuel as [|fuel IH]; intros k all w Hw; [done|].
  destruct (Hserve k w Hw) as (page & w1 & Hcall & Hlen & Hw1).
  rewrite GetAllUsers_loop_step, Hcall. simpl.
  rewrite bool_decide_eq_false_2 by lia.
  rewrite page_input_next. by apply IH.
Qed.

Lemma full_pages_length k w pages w1 :
  full_pages c k w pages w1 →
  500 * Z.of_nat (length pages) ≤ GoInt.len (concat pages).
Proof.
  unfold GoInt.len.
  induction 1 as [k w|k w page w1 pages w2 Hcall Hfull _ IH]; simpl; [lia|].
  rewrite length_app. unfold GoInt.len in Hfull. lia.
Qed.

(** *** The requests on the wire *)

Lemma users_calls_app (l1 l2 : list Request) :
  users_calls (l1 ++ l2) = users_calls l1 ++ users_calls l2.
Proof. unfold users_calls. by rewrite List.filter_app, fmap_app. Qed.

Lemma users_calls_token (l : list Request) :
  Forall (λ r, Path r = token_path) l → users_calls l = [].
Proof.
  unfold users_calls. induction 1 as [|r l Hr _ IH]; [done|].
  simpl. rewrite Hr. simpl. exact IH.
Qed.

Lemma users_calls_users (req : Request) :
  Path req = users_path → users_calls [req] = [Query req].
Proof. unfold users_calls. simpl. by intros ->. Qed.

(** The plugins send nothing but refresh requests, and leave the path
    and the query of the request as they are. *)
Lemma run_middleware_log (ps : list Plugin) (req : Request) (w : World) :
  ∃ l, log (run_middleware run_Plugin ps req w).2 = log w ++ l
       ∧ Forall (λ r, Path r = token_path) l
       ∧ ∀ req', (run_middleware run_Plugin ps req w).1 = h_Next req' →
           Path req' = Path req ∧ Query req' = Query req.
Proof.
  revert req w. induction ps as [|p ps IH]; intros req w.
  - exists []. simpl. rewrite app_nil_r. split_and!; [done|constructor|].
    by intros req' [= <-].
  - destruct p as [t|].
    + simpl. unfold mbind, M_bind, run_Timeouts, mret, M_ret. apply IH.
    + simpl. unfold mbind, M_bind. rewrite TokenPlugin_handler_Token.
      destruct (Token w) as [[token err] w1] eqn:HT. simpl.
      assert (∃ l0, log w1 = log w ++ l0 ∧ Forall (λ r, Path r = token_path) l0)
        as (l0 & Hl0 & Hp0).
      { pose proof (Token_log w) as Hlog. rewrite HT in Hlog. simpl in Hlog.
        destruct Hlog as [Hlog|Hlog].
        - exists []. rewrite app_nil_r. split; [done|constructor].
        - eexists. split; [done|]. by repeat constructor. }
      destruct err as [e|].
      * exists l0. split_and!; [done|done|]. by intros req' [=].
      * destruct (IH (authorized token req) w1) as (l & Hl & Hp & Hreq).
        exists (l0 ++ l). split_and!.
        -- by rewrite Hl, Hl0, app_assoc.
        -- by apply Forall_app.
        -- intros req' Hnext. by apply Hreq in Hnext.
Qed.

Lemma GetUsers_calls (input : GetUsersInput) (w : World) (page : Users) (w1 : World) :
  GetUsers c input w = ((page, None), w1) →
  users_calls (log w1) = users_calls (log w) ++ [Query (GetUsers_request c input)].
Proof.
  unfold GetUsers, doJSON, Do, mbind, M_bind.
  destruct (run_middleware_log (Middleware (cli c)) (GetUsers_request c input) w)
    as (l & Hl & Hp & Hreq).
  destruct (run_middleware run_Plugin _ _ w) as [[req'|e] w0]; simpl in *;
    [|by intros [=]].
  destruct (Hreq req' eq_refl) as [Hpath Hquery].
  pose proof (send_log req' w0) as Hsend.
  destruct (send req' w0) as [[e|resp] w2]; simpl in *; [by intros [=]|].
  assert (users_calls (log w2) = users_calls (log w) ++ [Query (GetUsers_request c input)])
    as Hcalls.
  { rewrite Hsend, Hl, !users_calls_app, (users_calls_token l Hp), app_nil_r.
    rewrite users_calls_users by (by rewrite Hpath, GetUsers_request_Path).
    by rewrite Hquery. }
  destruct (Ok resp); simpl.
  - destruct (Response_JSON json_Users resp []) as [users [e|]]; simpl;
      intros [= _ <-]; done.
  - by intros [=].
Qed.

Lemma full_pages_calls k w pages w1 :
  full_pages c k w pages w1 →
  users_calls (log w1) =
    users_calls (log w)
    ++ ((λ j, Query (GetUsers_request c (page_input j))) <$> seq k (length pages)).
Proof.
  induction 1 as [k w|k w page w1 pages w2 Hcall Hfull _ IH]; simpl.
  - by rewrite app_nil_r.
  - rewrite IH, (GetUsers_calls _ _ _ _ Hcall), <- app_assoc. done.
Qed.

End PaginationProperties.

Section PaginationErrors.
Context `{Remote}.
Variable c : client.

(** A run that ends with an error has met it in a call that followed
    full pages only. *)
Lemma GetAllUsers_loop_error_origin fuel k all w users e w' :
  GetAllUsers_loop fuel c (page_input k) all w = Some ((users, Some e), w') →
  ∃ pages w1, full_pages c k w pages w1
    ∧ GetUsers c (page_input (k + length pages)) w1 = (([], Some e), w').
Proof.
  revert k all w. induction fuel as [|fuel IH]; intros k all w; [done|].
  rewrite GetAllUsers_loop_step.
  pose proof (GetUsers_error_nil c (page_input k) w) as Hnil.
  destruct (GetUsers c (page_input k) w) as [[page err] w0] eqn:Hcall.
  simpl in *. destruct err as [e0|].
  - intros [= _ <- <-]. exists [], w. split; [constructor|].
    simpl. rewrite Nat.add_0_r, Hcall. by rewrite (Hnil e0 eq_refl).
  - case_bool_decide as Hshort; [done|].
    rewrite page_input_next. intros Hrest.
    destruct (IH _ _ _ Hrest) as (pages & w1 & Hpages & Hlast).
    exists (page :: pages), w1. split.
    + econstructor; [done|lia|done].
    + simpl. by replace (k + S (length pages))%nat with (S k + length pages)%nat by lia.
Qed.

(** A run that ends without an error has gone through full pages and a
    short one, and returns their records in that order after those it
    started with. *)
Lemma GetAllUsers_loop_success_origin fuel k all w users w' :
  GetAllUsers_loop fuel c (page_input k) all w = Some ((users, None), w') →
  ∃ pages w1 last, full_pages c k w pages w1
    ∧ GetUsers c (page_input (k + length pages)) w1 = ((last, None), w')
    ∧ GoInt.len last < 500
    ∧ users = all ++ concat pages ++ last.
Proof.
  revert k all w. induction fuel as [|fuel IH]; intros k all w; [done|].
  rewrite GetAllUsers_loop_step.
  destruct (GetUsers c (page_input k) w) as [[page err] w0] eqn:Hcall.
  simpl. destruct err as [e0|]; [done|].
  case_bool_decide as Hshort.
  - intros [= <- <-]. exists [], w, page. split_and!; [constructor| |done|done].
    simpl. by rewrite Nat.add_0_r.
  - rewrite page_input_next. intros Hrest.
    destruct (IH _ _ _ Hrest) as (pages & w1 & last & Hpages & Hlast & Hlen & ->).
    exists (page :: pages), w1, last. split_and!; [|
      by replace (k + length (page :: pages))%nat
           with (S k + length pages)%nat by (simpl; lia)
      |done|simpl; by rewrite <- !app_assoc].
    econstructor; [done|lia|done].
Qed.

(** The loop does not stop while the pages are full. *)
Lemma GetAllUsers_loop_running k w pages w1 :
  full_pages c k w pages w1 →
  ∀ fuel all, (fuel ≤ length pages)%nat →
    GetAllUsers_loop fuel c (page_input k) all w = None.
Proof.
  induction 1 as [k w|k w page w1 pages w2 Hcall Hfull _ IH]; intros fuel all Hfuel.
  - simpl in Hfuel. by replace fuel with 0%nat by lia.
  - destruct fuel as [|fuel]; [done|].
    rewrite GetAllUsers_loop_step, Hcall. simpl.
    rewrite bool_decide_eq_false_2 by lia.
    rewrite page_input_next. apply IH. simpl in Hfuel. lia.
Qed.

End PaginationErrors.

(** C1.  Let the server answer the calls number 0, 1, ... of [GetUsers]
    with full pages and then with a page of fewer than 500 records.  Then
    [GetAllUsers] returns, without error, the records of all these pages in
    the order they came, in the world the last call left.  The requests
    for the list of users that it put on the wire are those of the inputs
    [page_input 0], [page_input 1], ... up to the short page and no other:
    each has the limit 500, and the offset of call [k] is [500 * k] (as an
    [int]; exactly [500 * k] whenever the length of the accumulated slice
    fits an [int]).  With a page of 500 records followed by a page of 10,
    the result has the 510 records and the calls are two, the first
    without an offset parameter (offset 0) and the second with offset
    500.  Conversely every run that returns without an error has gone
    through such calls and returns the records of their pages in order. *)
Theorem GetAllUsers_pagination `{Remote} (c : client) :
  (∀ w pages w1 last w2,
      full_pages c 0 w pages w1 →
      GetUsers c (page_input (length pages)) w1 = ((last, None), w2) →
      GoInt.len last < 500 →
      (∀ fuel, (length pages < fuel)%nat →
         GetAllUsers fuel c w = Some ((concat pages ++ last, None), w2))
      ∧ users_calls (log w2)
        = users_calls (log w)
          ++ ((λ k, Query (GetUsers_request c (page_input k)))
                <$> seq 0 (S (length pages)))
      ∧ (∀ k : nat, (k ≤ length pages)%nat →
           Limit (page_input k) = 500
           ∧ Order (page_input k) = ""
           ∧ Offset (page_input k) = GoInt.wrap (500 * Z.of_nat k)
           ∧ (GoInt.len (concat pages) ≤ GoInt.MaxInt →
              Offset (page_input k) = 500 * Z.of_nat k)))
  ∧ (∀ w p1 w1 p2 w2,
      GetUsers c {| Offset := 0; Limit := 500; Order := "" |} w = ((p1, None), w1) →
      length p1 = 500%nat →
      GetUsers c {| Offset := 500; Limit := 500; Order := "" |} w1 = ((p2, None), w2) →
      length p2 = 10%nat →
      (∀ fuel, (2 ≤ fuel)%nat → GetAllUsers fuel c w = Some ((p1 ++ p2, None), w2))
      ∧ length (p1 ++ p2) = 510%nat
      ∧ users_calls (log w2)
        = users_calls (log w)
          ++ [ {[ "limit" := "500" ]};
               <[ "limit" := "500" ]> {[ "offset" := "500" ]} ])
  ∧ (∀ fuel w users w',
      GetAllUsers fuel c w = Some ((users, None), w') →
      ∃ pages w1 last,
        full_pages c 0 w pages w1
        ∧ GetUsers c (page_input (length pages)) w1 = ((last, None), w')
        ∧ GoInt.len last < 500
        ∧ users = concat pages ++ last).
Proof.
  assert (∀ w pages w1 last w2,
      full_pages c 0 w pages w1 →
      GetUsers c (page_input (length pages)) w1 = ((last, None), w2) →
      GoInt.len last < 500 →
      (∀ fuel, (length pages < fuel)%nat →
         GetAllUsers fuel c w = Some ((concat pages ++ last, None), w2))
      ∧ users_calls (log w2)
        = users_calls (log w)
          ++ ((λ k, Query (GetUsers_request c (page_input k)))
                <$> seq 0 (S (length pages)))) as Hgeneral.
  { intros w pages w1 last w2 Hpages Hlast Hshort. split.
    - intros fuel Hfuel. unfold GetAllUsers. rewrite <- page_input_0.
      replace fuel with (length pages + S (fuel - S (length pages)))%nat by lia.
      rewrite (GetAllUsers_loop_full_pages c _ _ _ _ Hpages), Nat.add_0_l.
      rewrite GetAllUsers_loop_step, Hlast. simpl.
      by rewrite bool_decide_eq_true_2.
    - rewrite (GetUsers_calls c _ _ _ _ Hlast), (full_pages_calls c _ _ _ _ Hpages).
      rewrite seq_S, fmap_app, <- app_assoc. done. }
  split_and!.
  - intros w pages w1 last w2 Hpages Hlast Hshort.
    destruct (Hgeneral w pages w1 last w2 Hpages Hlast Hshort) as [Hres Hcalls].
    split_and!; [done|done|].
    intros k Hk. split_and!; [done|done|done|].
    intros Hfits. apply page_input_Offset.
    pose proof (full_pages_length c _ _ _ _ Hpages). lia.
  - intros w p1 w1 p2 w2 Hfirst Hlen1 Hsecond Hlen2.
    assert (full_pages c 0 w [p1] w1) as Hpages.
    { econstructor; [exact Hfirst|unfold GoInt.len; lia|constructor]. }
    destruct (Hgeneral w [p1] w1 p2 w2 Hpages Hsecond) as [Hres Hcalls].
    { unfold GoInt.len. lia. }
    split_and!.
    + intros fuel Hfuel. rewrite Hres by (simpl; lia). simpl. by rewrite app_nil_r.
    + rewrite length_app. lia.
    + rewrite Hcalls. reflexivity.
  - intros fuel w users w' Hrun. unfold GetAllUsers in Hrun.
    rewrite <- page_input_0 in Hrun.
    by apply GetAllUsers_loop_success_origin in Hrun.
Qed.

(** C5.  When the calls of [GetUsers] give full pages and the next call
    gives an error, [GetAllUsers] returns the nil list with that error, in
    the world that call left; the records of the full pages are not
    returned.  And a run of [GetAllUsers] that returns an error returns
    the nil list with it, the error being that of a call of [GetUsers] that
    followed full pages. *)
Theorem GetAllUsers_page_error `{Remote} (c : client) :
  (∀ w pages w1 page e w2,
      full_pages c 0 w pages w1 →
      GetUsers c (page_input (length pages)) w1 = ((page, Some e), w2) →
      ∀ fuel, (length pages < fuel)%nat →
        GetAllUsers fuel c w = Some (([], Some e), w2))
  ∧ (∀ fuel w users e w',
      GetAllUsers fuel c w = Some ((users, Some e), w') →
      users = []
      ∧ ∃ pages w1, full_pages c 0 w pages w1
          ∧ GetUsers c (page_input (length pages)) w1 = (([], Some e), w')).
Proof.
  split.
  - intros w pages w1 page e w2 Hpages Herr fuel Hfuel.
    unfold GetAllUsers. rewrite <- page_input_0.
    replace fuel with (length pages + S (fuel - S (length pages)))%nat by lia.
    rewrite (GetAllUsers_loop_full_pages c _ _ _ _ Hpages), Nat.add_0_l.
    by rewrite GetAllUsers_loop_step, Herr.
  - intros fuel w users e w' Hrun. split.
    + by eapply GetAllUsers_loop_error_nil.
    + unfold GetAllUsers in Hrun. rewrite <- page_input_0 in Hrun.
      by apply GetAllUsers_loop_error_origin in Hrun.
Qed.

(** C10.  [GetAllUsers] returns exactly when, after calls that gave full
    pages, a call of [GetUsers] gives an error or a page of fewer than 500
    records.  Nothing on the side of the client bounds the number of
    turns: while the pages are full the loop is still running, whatever
    their number, and when every call is answered with 500 records the
    loop never returns. *)
Theorem GetAllUsers_termination `{Remote} (c : client) :
  (∀ w, returns c w
        ↔ ∃ pages w1, full_pages c 0 w pages w1 ∧ last_call c (length pages) w1)
  ∧ (∀ w pages w1, full_pages c 0 w pages w1 →
       ∀ fuel, (fuel ≤ length pages)%nat → GetAllUsers fuel c w = None)
  ∧ (∀ (Inv : World → Prop) w,
       Inv w →
       (∀ k w0, Inv w0 → ∃ page w1,
           GetUsers c (page_input k) w0 = ((page, None), w1)
           ∧ GoInt.len page = 500 ∧ Inv w1) →
       (∀ fuel, GetAllUsers fuel c w = None) ∧ ¬ returns c w).
Proof.
  split_and!.
  - intros w. split.
    + intros [fuel Hfuel]. unfold GetAllUsers in Hfuel.
      rewrite <- page_input_0 in Hfuel.
      by apply GetAllUsers_loop_returns in Hfuel.
    + intros (pages & w1 & Hpages & Hlast).
      exists (length pages + 1)%nat. unfold GetAllUsers. rewrite <- page_input_0.
      rewrite (GetAllUsers_loop_full_pages c _ _ _ _ Hpages), Nat.add_0_l.
      by apply GetAllUsers_loop_last_call.
  - intros w pages w1 Hpages fuel Hfuel. unfold GetAllUsers.
    rewrite <- page_input_0. by eapply GetAllUsers_loop_running.
  - intros Inv w Hw Hserve.
    assert (∀ fuel, GetAllUsers fuel c w = None) as Hnone.
    { intros fuel. unfold GetAllUsers. rewrite <- page_input_0.
      by eapply GetAllUsers_loop_forever. }
    split; [done|]. intros [fuel Hfuel]. by rewrite Hnone in Hfuel.
Qed.

(** * The properties on the mock *)

(** ** [Users.Filter] *)

Lemma Filter_subsequence_witness :
  sublist [User_with_ID 2] [User_with_ID 1; User_with_ID 2]
  ∧ Forall (λ u, bool_decide (ID u > 1) = true) [User_with_ID 2]
  ∧ sublist [User_with_ID 2]
      (Filter [User_with_ID 1; User_with_ID 2] (λ user, bool_decide (ID user > 1)))
  ∧ Filter [User_with_ID 1; User_with_ID 2] (λ user, bool_decide (ID user > 1))
    = [User_with_ID 2].
Proof.
  assert (sublist [User_with_ID 2] [User_with_ID 1; User_with_ID 2]) as Hsub.
  { apply sublist_cons. reflexivity. }
  assert (Forall (λ u, bool_decide (ID u > 1) = true) [User_with_ID 2]) as Hall.
  { repeat constructor. }
  destruct Filter_subsequence as [Hgeneral Hexample].
  destruct (Hgeneral [User_with_ID 1; User_with_ID 2]
              (λ user, bool_decide (ID user > 1))) as (_ & _ & _ & Hgreatest & _).
  split_and!; [exact Hsub|exact Hall|exact (Hgreatest _ Hsub Hall)|exact Hexample].
Defined.

(** ** The token provider *)

Lemma Token_reuses_cached_witness :
  clock (env (Mock.world Mock.token_only Mock.cached_provider)) + 10 * Second
    < Expires (provider (Mock.world Mock.token_only Mock.cached_provider))
  ∧ Token (Mock.world Mock.token_only Mock.cached_provider)
    = (("tok1", None), Mock.world Mock.token_only Mock.cached_provider).
Proof.
  assert (clock (env (Mock.world Mock.token_only Mock.cached_provider)) + 10 * Second
          < Expires (provider (Mock.world Mock.token_only Mock.cached_provider)))
    as Hlate by (vm_compute; reflexivity).
  split; [exact Hlate|].
  exact (proj1 (Token_reuses_cached _ Hlate)).
Defined.

Lemma Token_refreshes_once_witness :
  Expires (provider (Mock.world Mock.token_only Mock.new_provider))
    ≤ clock (env (Mock.world Mock.token_only Mock.new_provider)) + 10 * Second
  ∧ log (Token (Mock.world Mock.token_only Mock.new_provider)).2
    = [token_request Mock.new_provider]
  ∧ (Token (Mock.world Mock.token_only Mock.new_provider)).1 = ("tok1", None)
  ∧ provider (Token (Mock.world Mock.token_only Mock.new_provider)).2
    = Mock.cached_provider.
Proof.
  assert (Expires (provider (Mock.world Mock.token_only Mock.new_provider))
          ≤ clock (env (Mock.world Mock.token_only Mock.new_provider)) + 10 * Second)
    as Hsoon by (vm_compute; discriminate).
  destruct (Token_refreshes_once _ Hsoon) as (_ & _ & _ & Hlog & _ & Hok).
  destruct (Hok {| StatusCode := 200;
                   RespBody := Mock.JSON_token "tok1" (5000 * Second) |}
              Mock.cached_provider)
    as [Hvalue Hprovider]; [reflexivity..|].
  split_and!; [exact Hsoon|exact Hlog|exact Hvalue|exact Hprovider].
Defined.

(** ** Classification of error responses *)

(** C4, as it was stated, fails for a response whose body is no JSON: the
    status is neither 2xx nor 401 nor 403, and the error is the failure
    of the decoder, not a decoded [{message, error}] object. *)
Lemma parseErrorResponse_undecodable_body :
  Ok Mock.bad_gateway = false
  ∧ StatusCode Mock.bad_gateway ≠ 401
  ∧ StatusCode Mock.bad_gateway ≠ 403
  ∧ @parseErrorResponse Mock.remote Mock.bad_gateway = DecodeError Mock.syntax_error
  ∧ ¬ (∃ a, @parseErrorResponse Mock.remote Mock.bad_gateway = APIError a).
Proof.
  split_and!; [reflexivity|discriminate|discriminate|reflexivity|].
  intros [a Ha]. discriminate Ha.
Qed.

Lemma parseErrorResponse_classifies_witness :
  StatusCode Mock.bad_request ≠ 401
  ∧ StatusCode Mock.bad_request ≠ 403
  ∧ @parseErrorResponse Mock.remote Mock.bad_request
    = APIError {| Message := ""; Err := "bad request" |}
  ∧ Error (@parseErrorResponse Mock.remote Mock.bad_request) = "bad request".
Proof.
  assert (StatusCode Mock.bad_request ≠ 401) as H401 by discriminate.
  assert (StatusCode Mock.bad_request ≠ 403) as H403 by discriminate.
  destruct (@parseErrorResponse_classifies Mock.remote Mock.bad_request)
    as (_ & _ & Hother).
  destruct (Hother H401 H403) as [Hdecoded _].
  destruct (Hdecoded {| Message := ""; Err := "bad request" |} eq_refl)
    as (Herr & _ & Hmsg & _).
  split_and!; [exact H401|exact H403|exact Herr|].
  apply Hmsg. discriminate.
Defined.

(** ** The token plugin *)

Lemma token_plugin_guards_requests_witness :
  Token (Mock.world Mock.token_refused Mock.new_provider)
    = (("", Some ErrUnauthorized),
       (Token (Mock.world Mock.token_refused Mock.new_provider)).2)
  ∧ call Mock.new_client (Call_GetUsers first_page)
      (Mock.world Mock.token_refused Mock.new_provider)
    = (Some ErrUnauthorized,
       (Token (Mock.world Mock.token_refused Mock.new_provider)).2)
  ∧ log (Token (Mock.world Mock.token_refused Mock.new_provider)).2
    = [token_request Mock.new_provider]
  ∧ Token (Mock.world Mock.two_pages Mock.cached_provider)
    = (("tok1", None), Mock.world Mock.two_pages Mock.cached_provider)
  ∧ log (call Mock.new_client Call_GetUserQuotaScans
           (Mock.world Mock.two_pages Mock.cached_provider)).2
    = [authorized "tok1" (GetUserQuotaScans_request Mock.new_client)].
Proof.
  assert (Token (Mock.world Mock.token_refused Mock.new_provider)
          = (("", Some ErrUnauthorized),
             (Token (Mock.world Mock.token_refused Mock.new_provider)).2))
    as Hfail by (vm_compute; reflexivity).
  assert (Token (Mock.world Mock.two_pages Mock.cached_provider)
          = (("tok1", None), Mock.world Mock.two_pages Mock.cached_provider))
    as Hpass by (vm_compute; reflexivity).
  pose proof (token_plugin_guards_requests "http://localhost" "admin" "secret"
                _ _ _ _ Hfail) as (Hlog & _ & _ & Hcall & _).
  pose proof (token_plugin_guards_requests "http://localhost" "admin" "secret"
                _ _ _ _ Hpass) as (_ & _ & _ & Hsent).
  split_and!;
    [exact Hfail|exact (Hcall _)|exact Hlog|exact Hpass
    |exact (Hsent Call_GetUserQuotaScans)].
Defined.

(** ** Building the list request *)

(** C8, as it was stated, fails for a negative offset and a negative
    limit: neither is zero and neither is attached. *)
Lemma GetUsers_negative_offset_omitted :
  Offset Mock.negative_input ≠ 0
  ∧ Limit Mock.negative_input ≠ 0
  ∧ Query (GetUsers_request Mock.bare_client Mock.negative_input) !! "offset" = None
  ∧ Query (GetUsers_request Mock.bare_client Mock.negative_input) !! "limit" = None.
Proof. split_and!; [discriminate|discriminate|reflexivity|reflexivity]. Qed.

Lemma GetUsers_query_parameters_witness :
  Query (GetUsers_request Mock.bare_client
           {| Offset := 500; Limit := 500; Order := "id" |}) !! "offset" = Some "500"
  ∧ Query (GetUsers_request Mock.bare_client
             {| Offset := 500; Limit := 500; Order := "id" |}) !! "limit" = Some "500"
  ∧ Query (GetUsers_request Mock.bare_client
             {| Offset := 500; Limit := 500; Order := "id" |}) !! "order" = Some "id"
  ∧ Query (GetUsers_request Mock.bare_client
             {| Offset := 500; Limit := 500; Order := "id" |}) !! "page" = None.
Proof.
  destruct (@GetUsers_query_parameters Mock.remote Mock.bare_client
              {| Offset := 500; Limit := 500; Order := "id" |})
    as (_ & _ & Hoffset & Hlimit & Horder & Hrest & _).
  split_and!; [exact Hoffset|exact Hlimit|exact Horder|].
  apply Hrest; discriminate.
Defined.

(** ** [TerminateActiveConnection] *)

(** The test of client_test.go, and a connection that is terminated
    twice. *)
Lemma TerminateActiveConnection_classifies_witness :
  (TerminateActiveConnection Mock.bare_client "SFTP_001"
     (Mock.world Mock.connections Mock.new_provider)).1 = None
  ∧ (TerminateActiveConnection Mock.bare_client "SFTP_002"
       (Mock.world Mock.connections Mock.new_provider)).1 = Some ErrUnauthorized
  ∧ (TerminateActiveConnection Mock.bare_client "SFTP_003"
       (Mock.world Mock.terminated Mock.new_provider)).1
    = Some (APIError {| Message := "connection not found"; Err := "" |})
  ∧ (TerminateActiveConnection Mock.bare_client "SFTP_003"
       (TerminateActiveConnection Mock.bare_client "SFTP_003"
          (Mock.world Mock.terminated Mock.new_provider)).2).1
    = (TerminateActiveConnection Mock.bare_client "SFTP_003"
         (Mock.world Mock.terminated Mock.new_provider)).1.
Proof.
  destruct (TerminateActiveConnection_classifies Mock.bare_client "SFTP_001"
              (Mock.world Mock.connections Mock.new_provider))
    as (_ & _ & _ & Hnil & _).
  destruct (TerminateActiveConnection_classifies Mock.bare_client "SFTP_002"
              (Mock.world Mock.connections Mock.new_provider))
    as (_ & _ & _ & _ & _ & H401 & _).
  destruct (TerminateActiveConnection_classifies Mock.bare_client "SFTP_003"
              (Mock.world Mock.terminated Mock.new_provider))
    as (_ & _ & _ & _ & Hother & _ & _ & Hagain).
  split_and!.
  - apply Hnil. exists {| StatusCode := 200; RespBody := Mock.NotJSON "" |}.
    split; [reflexivity|]. simpl. lia.
  - apply (H401 {| StatusCode := 401; RespBody := Mock.NotJSON "" |});
      reflexivity.
  - apply (Hother {| StatusCode := 404;
                     RespBody := Mock.JSON_error {| Message := "connection not found";
                                                    Err := "" |} |}).
    + reflexivity.
    + simpl. lia.
  - apply Hagain. reflexivity.
Defined.

(** ** Pagination *)

Lemma two_pages_first :
  GetUsers Mock.new_client {| Offset := 0; Limit := 500; Order := "" |}
    (Mock.world Mock.two_pages Mock.new_provider)
  = ((Mock.page 1 500, None),
     (GetUsers Mock.new_client {| Offset := 0; Limit := 500; Order := "" |}
        (Mock.world Mock.two_pages Mock.new_provider)).2).
Proof. vm_compute. reflexivity. Qed.

Lemma two_pages_second :
  GetUsers Mock.new_client {| Offset := 500; Limit := 500; Order := "" |}
    (GetUsers Mock.new_client {| Offset := 0; Limit := 500; Order := "" |}
       (Mock.world Mock.two_pages Mock.new_provider)).2
  = ((Mock.page 501 10, None),
     (GetUsers Mock.new_client {| Offset := 500; Limit := 500; Order := "" |}
        (GetUsers Mock.new_client {| Offset := 0; Limit := 500; Order := "" |}
           (Mock.world Mock.two_pages Mock.new_provider)).2).2).
Proof. vm_compute. reflexivity. Qed.

Lemma GetAllUsers_pagination_witness :
  length (Mock.page 1 500) = 500%nat
  ∧ length (Mock.page 501 10) = 10%nat
  ∧ (∃ w2,
       GetAllUsers 2 Mock.new_client (Mock.world Mock.two_pages Mock.new_provider)
       = Some ((Mock.page 1 500 ++ Mock.page 501 10, None), w2)
       ∧ users_calls (log w2)
         = [ {[ "limit" := "500" ]}; <[ "limit" := "500" ]> {[ "offset" := "500" ]} ])
  ∧ length (Mock.page 1 500 ++ Mock.page 501 10) = 510%nat.
Proof.
  assert (length (Mock.page 1 500) = 500%nat) as Hlen1 by (vm_compute; reflexivity).
  assert (length (Mock.page 501 10) = 10%nat) as Hlen2 by (vm_compute; reflexivity).
  destruct (proj1 (proj2 (GetAllUsers_pagination Mock.new_client)) _ _ _ _ _
              two_pages_first Hlen1 two_pages_second Hlen2)
    as (Hresult & Hlength & Hcalls).
  split_and!; [exact Hlen1|exact Hlen2| |exact Hlength].
  eexists. split; [apply Hresult; lia|exact Hcalls].
Defined.

Lemma page_then_error_first :
  GetUsers Mock.new_client (page_input 0)
    (Mock.world Mock.page_then_error Mock.new_provider)
  = ((Mock.page 1 500, None),
     (GetUsers Mock.new_client (page_input 0)
        (Mock.world Mock.page_then_error Mock.new_provider)).2).
Proof. vm_compute. reflexivity. Qed.

Lemma page_then_error_second :
  GetUsers Mock.new_client (page_input 1)
    (GetUsers Mock.new_client (page_input 0)
       (Mock.world Mock.page_then_error Mock.new_provider)).2
  = (([], Some (APIError {| Message := "database unavailable"; Err := "" |})),
     (GetUsers Mock.new_client (page_input 1)
        (GetUsers Mock.new_client (page_input 0)
           (Mock.world Mock.page_then_error Mock.new_provider)).2).2).
Proof. vm_compute. reflexivity. Qed.

Lemma GetAllUsers_page_error_witness :
  full_pages Mock.new_client 0
    (Mock.world Mock.page_then_error Mock.new_provider)
    [Mock.page 1 500]
    (GetUsers Mock.new_client (page_input 0)
       (Mock.world Mock.page_then_error Mock.new_provider)).2
  ∧ ∃ w2,
      GetAllUsers 2 Mock.new_client (Mock.world Mock.page_then_error Mock.new_provider)
      = Some (([], Some (APIError {| Message := "database unavailable"; Err := "" |})), w2).
Proof.
  assert (full_pages Mock.new_client 0
            (Mock.world Mock.page_then_error Mock.new_provider)
            [Mock.page 1 500]
            (GetUsers Mock.new_client (page_input 0)
               (Mock.world Mock.page_then_error Mock.new_provider)).2) as Hpages.
  { econstructor; [exact page_then_error_first|vm_compute; discriminate|constructor]. }
  split; [exact Hpages|].
  eexists.
  apply (proj1 (GetAllUsers_page_error Mock.new_client) _ _ _ _ _ _
           Hpages page_then_error_second).
  simpl. lia.
Defined.

(** On the endless server every call finds the world as the one before
    left it, but for the log. *)
Lemma endless_serve (req : Request) :
  Method req = "GET" → Path req = users_path →
  Mock.serve Mock.endless req
  = (Mock.endless,
     inr {| StatusCode := 200; RespBody := Mock.JSON_users (Mock.page 1 500) |}).
Proof.
  intros Hm Hp. unfold Mock.serve, Mock.endless. simpl. unfold Mock.matches. simpl.
  rewrite Hm, Hp. reflexivity.
Qed.

Lemma endless_GetUsers (k : nat) (l : list Request) :
  @GetUsers Mock.remote Mock.new_client (page_input k)
    {| env := (Mock.endless : @Env Mock.remote);
       provider := Mock.cached_provider; log := l |}
  = ((Mock.page 1 500, None),
     {| env := (Mock.endless : @Env Mock.remote);
        provider := Mock.cached_provider;
        log := l ++ [authorized "tok1"
                       (GetUsers_request Mock.new_client (page_input k))] |}).
Proof.
  unfold GetUsers, doJSON, mbind, M_bind.
  unfold Mock.new_client. rewrite (@Do_NewClient Mock.remote).
  rewrite (@Token_fresh Mock.remote) by reflexivity.
  cbn [fst snd]. unfold send. cbn [env provider log roundTrip Mock.remote].
  rewrite endless_serve.
  - reflexivity.
  - apply GetUsers_request_Method.
  - apply GetUsers_request_Path.
Qed.

Lemma endless_invariant (k : nat) (w0 : @World Mock.remote) :
  env w0 = Mock.endless ∧ provider w0 = Mock.cached_provider →
  ∃ page w1,
    GetUsers Mock.new_client (page_input k) w0 = ((page, None), w1)
    ∧ GoInt.len page = 500
    ∧ (env w1 = Mock.endless ∧ provider w1 = Mock.cached_provider).
Proof.
  destruct w0 as [e t l]. simpl. intros [-> ->].
  eexists _, _. split; [apply endless_GetUsers|].
  split; [vm_compute; reflexivity|done].
Qed.

Lemma GetAllUsers_termination_witness :
  ¬ returns Mock.new_client (Mock.world Mock.endless Mock.cached_provider)
  ∧ GetAllUsers 1000 Mock.new_client (Mock.world Mock.endless Mock.cached_provider)
    = None
  ∧ returns Mock.new_client (Mock.world Mock.two_pages Mock.new_provider).
Proof.
  destruct (@GetAllUsers_termination Mock.remote Mock.new_client) as (Hiff & _ & Hforever).
  destruct (Hforever
              (λ w, env w = Mock.endless ∧ provider w = Mock.cached_provider)
              (Mock.world Mock.endless Mock.cached_provider))
    as [Hnone Hnever].
  { split; reflexivity. }
  { intros k w0. apply endless_invariant. }
  split_and!; [exact Hnever|exact (Hnone 1000%nat)|].
  apply Hiff.
  eexists [Mock.page 1 500], _. split.
  - econstructor; [exact two_pages_first|vm_compute; discriminate|constructor].
  - right. change (page_input (length [Mock.page 1 500]))
      with {| Offset := 500; Limit := 500; Order := "" |}.
    rewrite two_pages_second. vm_compute. reflexivity.
Defined.

(** * Further properties *)

(** ** [Users.Filter], composed *)

(** X1. Filtering a filtered list is filtering once by the conjunction of
    the two predicates; hence the order of two filters does not matter and
    a filter applied twice does what it does once. *)
Theorem Filter_compose (users : Users) (f g : UserFilterFunc) :
  Filter (Filter users f) g = Filter users (λ u, f u && g u)
  ∧ Filter (Filter users f) g = Filter (Filter users g) f
  ∧ Filter (Filter users f) f = Filter users f.
Proof.
  assert (∀ f g : UserFilterFunc,
            Filter (Filter users f) g = Filter users (λ u, f u && g u)) as Hboth.
  { intros f' g'. induction users as [|u users IH]; [done|].
    rewrite !Filter_cons. destruct (f' u) eqn:Hf; simpl.
    - rewrite Filter_cons. destruct (g' u); by rewrite IH.
    - exact IH. }
  split_and!.
  - apply Hboth.
  - rewrite !Hboth. rewrite !Filter_filter.
    apply List.filter_ext. intros u. apply andb_comm.
  - rewrite Hboth, !Filter_filter.
    apply List.filter_ext. intros u. by destruct (f u).
Qed.

(** X2. The filter of a concatenation is the concatenation of the
    filters, and a filter never returns more records than it was given. *)
Theorem Filter_app_length (users more : Users) (f : UserFilterFunc) :
  Filter (users ++ more) f = Filter users f ++ Filter more f
  ∧ (length (Filter users f) ≤ length users)%nat.
Proof.
  split.
  - rewrite !Filter_filter. apply List.filter_app.
  - apply sublist_length, Filter_sublist.
Qed.

(** X3. The filter returns its input as it is exactly when every record
    satisfies the predicate, and the nil list exactly when none does. *)
Theorem Filter_all_or_none (users : Users) (f : UserFilterFunc) :
  (Filter users f = users ↔ Forall (λ u, f u = true) users)
  ∧ (Filter users f = [] ↔ Forall (λ u, f u = false) users).
Proof.
  split; split.
  - intros Hsame. rewrite <- Hsame. apply Filter_Forall.
  - induction 1 as [|u users Hu _ IH]; [done|].
    by rewrite Filter_cons, Hu, IH.
  - induction users as [|u users IH]; [constructor|].
    rewrite Filter_cons. destruct (f u) eqn:Hu; [done|].
    intros Hnil. constructor; [done|by apply IH].
  - induction 1 as [|u users Hu _ IH]; [done|].
    by rewrite Filter_cons, Hu.
Qed.

(** ** [UserQuotaScan.Time] *)

Lemma wrap_range (z : Z) : GoInt.in_range (GoInt.wrap z).
Proof.
  unfold GoInt.in_range, GoInt.wrap, GoInt.MinInt, GoInt.MaxInt, GoInt.bits.
  pose proof (Z.mod_pos_bound (z - - 2 ^ (64 - 1)) (2 ^ 64)). lia.
Qed.

(** X4. The start time of a scan counts milliseconds and [Time] turns it
    into nanoseconds with an [int64] product.  The result is the instant
    [Start] milliseconds after the epoch exactly when that product fits an
    [int64]; beyond that it wraps around to another instant.  Within the
    range, later starts give later instants. *)
Theorem UserQuotaScan_Time_milliseconds (Scan : UserQuotaScan) :
  (GoInt.in_range (Start Scan * 1000000)
   ↔ UserQuotaScan_Time Scan = Time_Unix 0 0 + Start Scan * Millisecond)
  ∧ GoInt.in_range (UserQuotaScan_Time Scan)
  ∧ (∀ Later : UserQuotaScan,
       GoInt.in_range (Start Scan * 1000000) →
       GoInt.in_range (Start Later * 1000000) →
       Start Scan < Start Later →
       UserQuotaScan_Time Scan < UserQuotaScan_Time Later).
Proof.
  unfold UserQuotaScan_Time, Time_Unix, int64_mul, Millisecond.
  split_and!.
  - split.
    + intros Hfits. rewrite wrap_in_range by done. lia.
    + intros Hexact.
      replace (Start Scan * 1000000) with (GoInt.wrap (Start Scan * 1000000)) by lia.
      apply wrap_range.
  - replace (0 * Second + GoInt.wrap (Start Scan * 1000000))
      with (GoInt.wrap (Start Scan * 1000000)) by lia.
    apply wrap_range.
  - intros Later Hscan Hlater Hlt. rewrite !wrap_in_range by done. lia.
Qed.

Lemma UserQuotaScan_Time_milliseconds_witness :
  GoInt.in_range (1600000000000 * 1000000)
  ∧ GoInt.in_range (1600000000001 * 1000000)
  ∧ UserQuotaScan_Time {| UserQuotaScan_Username := "alice"; Start := 1600000000000 |}
    < UserQuotaScan_Time {| UserQuotaScan_Username := "alice"; Start := 1600000000001 |}
  ∧ ¬ GoInt.in_range (9223372036855 * 1000000)
  ∧ UserQuotaScan_Time {| UserQuotaScan_Username := "alice"; Start := 9223372036855 |}
    ≠ Time_Unix 0 0 + 9223372036855 * Millisecond.
Proof.
  assert (GoInt.in_range (1600000000000 * 1000000)) as H0.
  { split; vm_compute; discriminate. }
  assert (GoInt.in_range (1600000000001 * 1000000)) as H1.
  { split; vm_compute; discriminate. }
  assert (¬ GoInt.in_range (9223372036855 * 1000000)) as H2.
  { intros [_ Hmax]. vm_compute in Hmax. by apply Hmax. }
  destruct (UserQuotaScan_Time_milliseconds
              {| UserQuotaScan_Username := "alice"; Start := 1600000000000 |})
    as (_ & _ & Hmono).
  destruct (UserQuotaScan_Time_milliseconds
              {| UserQuotaScan_Username := "alice"; Start := 9223372036855 |})
    as (Hiff & _ & _).
  split_and!; [exact H0|exact H1| |exact H2|].
  - apply (Hmono {| UserQuotaScan_Username := "alice"; Start := 1600000000001 |});
      [exact H0|exact H1|reflexivity].
  - intros Hexact. apply H2, Hiff, Hexact.
Defined.

(** ** The token provider, when a refresh fails and when it is asked again *)

Section TokenOutcomes.
Context `{Remote}.

(** A [Token] that finds its cache fresh cannot fail. *)
Lemma Token_error_stale (w : World) (e : error) :
  (Token w).1.2 = Some e →
  Time_After (Expires (provider w)) (Time_Add (clock (env w)) (Second * 10)) = false.
Proof.
  intros Hfail.
  destruct (Time_After _ _) eqn:Hcase; [|done].
  by rewrite Token_fresh in Hfail.
Qed.

(** A successful [Token] returns the value that the cache holds after the
    call. *)
Lemma Token_success_Value (w : World) :
  (Token w).1.2 = None → (Token w).1.1 = Value (provider (Token w).2).
Proof.
  destruct (Time_After (Expires (provider w))
              (Time_Add (clock (env w)) (Second * 10))) eqn:Hcase.
  - by rewrite Token_fresh.
  - rewrite Token_stale by done. cbv zeta.
    destruct (roundTrip _ _) as [e' [msg|resp]]; [done|].
    destruct (Ok resp); [|done].
    by destruct (json_tokenProvider _ _) as [t' [msg|]].
Qed.

End TokenOutcomes.

(** X5. When [Token] returns an error, the string it returns is empty, the
    cache was within ten seconds of its expiry, and one refresh request
    was made.  The error is that of the transport, or the classified error
    of a response that is no 2xx, and in both cases the cache is as it
    was; or it is the failure of the decoder on a 2xx response, and then
    the cache holds what the decoder left in it. *)
Theorem Token_error_outcomes `{Remote} (w : World) (e : error) :
  (Token w).1.2 = Some e →
  (Token w).1.1 = ""
  ∧ Expires (provider w) ≤ clock (env w) + 10 * Second
  ∧ log (Token w).2 = log w ++ [token_request (provider w)]
  ∧ match (roundTrip (env w) (token_request (provider w))).2 with
    | inl msg => e = TransportError msg ∧ provider (Token w).2 = provider w
    | inr resp =>
        if Ok resp then
          ∃ msg,
            (json_tokenProvider (RespBody resp) (provider w)).2 = Some msg
            ∧ e = DecodeError msg
            ∧ provider (Token w).2
              = (json_tokenProvider (RespBody resp) (provider w)).1
        else e = parseErrorResponse resp ∧ provider (Token w).2 = provider w
    end.
Proof.
  intros Hfail. pose proof (Token_error_stale w e Hfail) as Hstale.
  split_and!.
  - revert Hfail. rewrite Token_stale by done. cbv zeta.
    destruct (roundTrip _ _) as [e' [msg|resp]]; [done|].
    destruct (Ok resp); [|done].
    by destruct (json_tokenProvider _ _) as [t' [msg|]].
  - unfold Time_After, Time_Add in Hstale.
    apply bool_decide_eq_false in Hstale. lia.
  - by eapply Token_failure_log.
  - revert Hfail. rewrite Token_stale by done. cbv zeta.
    destruct (roundTrip _ _) as [e' [msg|resp]]; simpl.
    + by intros [= <-].
    + destruct (Ok resp); simpl.
      * destruct (json_tokenProvider _ _) as [t' [msg|]]; simpl; [|done].
        intros [= <-]. by exists msg.
      * by intros [= <-].
Qed.

(** X6. A successful [Token] returns the value its cache holds afterwards;
    and when that cache expires more than ten seconds after the time of
    the next call, the next call returns the same value and changes
    nothing: one refresh serves every call up to ten seconds before the
    expiry. *)
Theorem Token_again `{Remote} (w : World) :
  (Token w).1.2 = None →
  clock (env (Token w).2) + 10 * Second < Expires (provider (Token w).2) →
  (Token w).1.1 = Value (provider (Token w).2)
  ∧ Token (Token w).2 = ((Token w).1, (Token w).2).
Proof.
  intros Hok Hlate. pose proof (Token_success_Value w Hok) as Hvalue.
  split; [done|].
  rewrite Token_fresh.
  - destruct (Token w) as [[token err] w']. simpl in *. by subst.
  - unfold Time_After, Time_Add. apply bool_decide_eq_true. lia.
Qed.

Lemma Token_error_outcomes_witness :
  (Token (Mock.world Mock.token_refused Mock.new_provider)).1.2 = Some ErrUnauthorized
  ∧ (Token (Mock.world Mock.token_refused Mock.new_provider)).1.1 = ""
  ∧ provider (Token (Mock.world Mock.token_refused Mock.new_provider)).2
    = Mock.new_provider.
Proof.
  assert ((Token (Mock.world Mock.token_refused Mock.new_provider)).1.2
          = Some ErrUnauthorized) as Hfail by (vm_compute; reflexivity).
  destruct (Token_error_outcomes _ _ Hfail) as (Hempty & _ & _ & Hcase).
  split_and!; [exact Hfail|exact Hempty|exact (proj2 Hcase)].
Defined.

Lemma Token_again_witness :
  (Token (Mock.world Mock.token_only Mock.new_provider)).1.2 = None
  ∧ clock (env (Token (Mock.world Mock.token_only Mock.new_provider)).2) + 10 * Second
    < Expires (provider (Token (Mock.world Mock.token_only Mock.new_provider)).2)
  ∧ Token (Token (Mock.world Mock.token_only Mock.new_provider)).2
    = ((Token (Mock.world Mock.token_only Mock.new_provider)).1,
       (Token (Mock.world Mock.token_only Mock.new_provider)).2).
Proof.
  assert ((Token (Mock.world Mock.token_only Mock.new_provider)).1.2 = None)
    as Hok by (vm_compute; reflexivity).
  assert (clock (env (Token (Mock.world Mock.token_only Mock.new_provider)).2)
            + 10 * Second
          < Expires (provider (Token (Mock.world Mock.token_only Mock.new_provider)).2))
    as Hlate by (vm_compute; reflexivity).
  split_and!; [exact Hok|exact Hlate|].
  exact (proj2 (Token_again _ Hok Hlate)).
Defined.

(** ** What the plugins do to a request *)

Section MiddlewareProperties.
Context `{Remote}.

Lemma same_but_Authorization_refl (req : Request) : same_but_Authorization req req.
Proof. by repeat split. Qed.

Lemma same_but_Authorization_trans (r1 r2 r3 : Request) :
  same_but_Authorization r1 r2 → same_but_Authorization r2 r3 →
  same_but_Authorization r1 r3.
Proof.
  intros (Hm & Hb & Hp & Hq & Ha & Hj & Hh) (Hm' & Hb' & Hp' & Hq' & Ha' & Hj' & Hh').
  repeat split; try congruence.
  intros k Hk. by rewrite Hh', Hh.
Qed.

Lemma same_but_Authorization_authorized (token : string) (req : Request) :
  same_but_Authorization req (authorized token req).
Proof.
  repeat split. intros k Hk. simpl. by rewrite lookup_insert_ne.
Qed.

(** The request that leaves the plugins is the one that entered them, but
    for the header of the token plugin. *)
Lemma run_middleware_same (ps : list Plugin) (req : Request) (w : World) (req' : Request) :
  (run_middleware run_Plugin ps req w).1 = h_Next req' →
  same_but_Authorization req req'.
Proof.
  revert req w. induction ps as [|p ps IH]; intros req w.
  - simpl. intros [= <-]. apply same_but_Authorization_refl.
  - destruct p as [t|]; simpl; unfold mbind, M_bind.
    + unfold run_Timeouts, mret, M_ret. apply IH.
    + rewrite TokenPlugin_handler_Token.
      destruct ((Token w).1.2) as [e|]; [done|].
      intros Hnext. eapply same_but_Authorization_trans;
        [apply same_but_Authorization_authorized|by eapply IH].
Qed.



(** The plugins send refresh requests only. *)
Lemma run_middleware_tokens (ps : list Plugin) (req : Request) (w : World) :
  ∃ l, log (run_middleware run_Plugin ps req w).2 = log w ++ l
       ∧ Forall (λ r, ∃ t, r = token_request t) l.
Proof.
  revert req w. induction ps as [|p ps IH]; intros req w.
  - exists []. simpl. by rewrite app_nil_r.
  - destruct p as [t|]; simpl; unfold mbind, M_bind.
    + unfold run_Timeouts, mret, M_ret. apply IH.
    + rewrite TokenPlugin_handler_Token.
      assert (∃ l0, log (Token w).2 = log w ++ l0
                    ∧ Forall (λ r, ∃ t, r = token_request t) l0)
        as (l0 & Hl0 & Hp0).
      { destruct (Token_log w) as [Hlog|Hlog].
        - exists []. by rewrite app_nil_r.
        - eexists. split; [done|]. repeat constructor. by eexists. }
      destruct ((Token w).1.2) as [e|].
      * by exists l0.
      * destruct (IH (authorized (Token w).1.1 req) (Token w).2) as (l & Hl & Hp).
        exists (l0 ++ l). split.
        -- by rewrite Hl, Hl0, app_assoc.
        -- by apply Forall_app.
Qed.

(** What [req.Do()] adds to the log: refresh requests, and after them the
    request itself unless a plugin has stopped it. *)
Lemma Do_requests (c : client) (req : Request) (w : World) :
  ∃ l, Forall (λ r, ∃ t, r = token_request t) l
    ∧ ((∃ e, (Do run_Plugin (cli c) req w).1 = inl e
             ∧ log (Do run_Plugin (cli c) req w).2 = log w ++ l)
       ∨ ∃ req', same_but_Authorization req req'
           ∧ log (Do run_Plugin (cli c) req w).2 = log w ++ l ++ [req']).
Proof.
  unfold Do, mbind, M_bind.
  destruct (run_middleware_tokens (Middleware (cli c)) req w) as (l & Hl & Hp).
  pose proof (run_middleware_same (Middleware (cli c)) req w) as Hsame.
  destruct (run_middleware run_Plugin _ req w) as [[req'|e] w0]; simpl in *.
  - exists l. split; [done|]. right. exists req'. split; [by apply Hsame|].
    by rewrite send_log, Hl, app_assoc.
  - exists l. split; [done|]. left. by exists e.
Qed.

End MiddlewareProperties.



(** ** The methods that list records, and [StartUserQuotaScan] *)

Section ListOperations.
Context `{Remote}.

(** The shape that [GetUsers], [GetUserQuotaScans] and
    [GetActiveConnections] share: [doJSON] into a nil slice, and nil
    instead of the slice when there is an error. *)
Lemma list_outcome_doJSON {A} (c : client) (req : Request)
    (decode : Body → list A → list A * option string) (w : World) :
  list_outcome c req decode w
    (('(l, err) ← doJSON c req decode [];
      match err with
      | Some e => mret ([], Some e)
      | None => mret (l, None)
      end) w).
Proof.
  unfold list_outcome, doJSON, mbind, M_bind, mret, M_ret.
  destruct (Do run_Plugin (cli c) req w) as [[err|resp] w1]; simpl.
  - split_and!; try done.
    + split; [done|]. by intros (resp & [=] & _).
    + by intros err' [= <-].
  - destruct (Ok resp) eqn:Hok; simpl.
    + unfold Response_JSON.
      destruct (decode (RespBody resp) []) as [l [msg|]] eqn:Hdec; simpl.
      * split_and!; try done.
        -- split; [done|]. intros (resp' & [= <-] & _ & Hnone).
           by rewrite Hdec in Hnone.
        -- intros resp' [= <-] _ Hnone. by rewrite Hdec in Hnone.
        -- intros resp' msg' [= <-] _. rewrite Hdec. simpl. by intros [= <-].
        -- intros resp' [= <-]. by rewrite Hok.
      * split_and!; try done.
        -- split; [|done]. intros _. exists resp. by rewrite Hdec.
        -- intros resp' [= <-] _ _. by rewrite Hdec.
        -- intros resp' msg' [= <-] _. by rewrite Hdec.
        -- intros resp' [= <-]. by rewrite Hok.
    + split_and!; try done.
      * split; [done|]. intros (resp' & [= <-] & Hok' & _). by rewrite Hok in Hok'.
      * intros resp' [= <-]. by rewrite Hok.
      * intros resp' msg' [= <-]. by rewrite Hok.
      * by intros resp' [= <-].
Qed.

End ListOperations.

(** X8. [GetUsers], [GetUserQuotaScans] and [GetActiveConnections] each
    dispatch one request and do nothing else to the world.  They return
    no error exactly when the response is a 2xx whose body decodes, and
    then the records are the decoder's; when the body of a 2xx does not
    decode the error is the decoder's and the list is nil, whatever part
    of the records the decoder had built; a response that is no 2xx gives
    its classified error without its body being decoded as records; an
    error of the dispatch is returned as it is. *)
Theorem list_operations_outcome `{Remote} (c : client) (input : GetUsersInput)
    (w : World) :
  list_outcome c (GetUsers_request c input) json_Users w (GetUsers c input w)
  ∧ list_outcome c (GetUserQuotaScans_request c) json_UserQuotaScans w
      (GetUserQuotaScans c w)
  ∧ list_outcome c (GetActiveConnections_request c) json_ConnectionStatus w
      (GetActiveConnections c w).
Proof.
  split_and!.
  - apply (list_outcome_doJSON c (GetUsers_request c input) json_Users w).
  - apply (list_outcome_doJSON c (GetUserQuotaScans_request c) json_UserQuotaScans w).
  - apply (list_outcome_doJSON c (GetActiveConnections_request c)
             json_ConnectionStatus w).
Qed.

(** X9. [StartUserQuotaScan] dispatches a POST for [/api/v2/quota-scans]
    with the user as JSON body and no query.  It returns nil exactly when
    the dispatch gives a response with a status from 200 to 299, whatever
    the body of that response; any other response gives its classified
    error, and an error of the dispatch is returned as it is. *)
Theorem StartUserQuotaScan_classifies `{Remote} (c : client) (user : User)
    (w : World) :
  let req := StartUserQuotaScan_request c user in
  let r := Do run_Plugin (cli c) req w in
  Method req = "POST"
  ∧ Path req = "/api/v2/quota-scans"
  ∧ Query req = ∅
  ∧ JSONBody req = Some user
  ∧ BaseURL req = URL (cli c)
  ∧ (StartUserQuotaScan c user w).2 = r.2
  ∧ ((StartUserQuotaScan c user w).1 = None
     ↔ ∃ resp, r.1 = inr resp ∧ 200 ≤ StatusCode resp < 300)
  ∧ (∀ resp, r.1 = inr resp → ¬ (200 ≤ StatusCode resp < 300) →
       (StartUserQuotaScan c user w).1 = Some (parseErrorResponse resp))
  ∧ (∀ err, r.1 = inl err → (StartUserQuotaScan c user w).1 = Some err).
Proof.
  cbv zeta. unfold StartUserQuotaScan, mbind, M_bind.
  destruct (Do run_Plugin (cli c) _ w) as [[err|resp] w1]; simpl.
  - split_and!; try done.
    + split; [done|]. by intros (resp & [=] & _).
    + by intros err' [= <-].
  - unfold Ok. case_bool_decide as Hs; simpl.
    + split_and!; try done.
      * split; [|done]. intros _. by exists resp.
      * by intros resp' [= <-] Hs'.
    + split_and!; try done.
      * split; [done|]. by intros (resp' & [= <-] & Hs').
      * by intros resp' [= <-] _.
Qed.

Lemma list_operations_outcome_witness :
  (GetUserQuotaScans Mock.new_client
     (Mock.world Scenarios.quota_scan Mock.cached_provider)).1
  = ([{| UserQuotaScan_Username := "alice"; Start := 1600000000000 |}], None).
Proof.
  destruct (@list_operations_outcome Mock.remote Mock.new_client first_page
              (Mock.world Scenarios.quota_scan Mock.cached_provider))
    as (_ & (_ & Hnone & Hrecords & _) & _).
  apply injective_projections.
  - apply (Hrecords
             {| StatusCode := 200;
                RespBody := Mock.JSON_scans
                  [{| UserQuotaScan_Username := "alice"; Start := 1600000000000 |}] |});
      reflexivity.
  - apply Hnone. eexists. split_and!; reflexivity.
Defined.

Lemma StartUserQuotaScan_classifies_witness :
  (StartUserQuotaScan Mock.new_client Scenarios.alice
     (Mock.world Scenarios.quota_scan Mock.cached_provider)).1 = None
  ∧ (StartUserQuotaScan Mock.new_client Scenarios.alice
       (Mock.world Mock.two_pages Mock.cached_provider)).1
    = Some (TransportError "mock: cannot match any request").
Proof.
  destruct (@StartUserQuotaScan_classifies Mock.remote Mock.new_client Scenarios.alice
              (Mock.world Scenarios.quota_scan Mock.cached_provider))
    as (_ & _ & _ & _ & _ & _ & Hnil & _).
  destruct (@StartUserQuotaScan_classifies Mock.remote Mock.new_client Scenarios.alice
              (Mock.world Mock.two_pages Mock.cached_provider))
    as (_ & _ & _ & _ & _ & _ & _ & _ & Herr).
  split.
  - apply Hnil. exists {| StatusCode := 202; RespBody := Mock.NotJSON "" |}.
    split; [reflexivity|]. simpl. lia.
  - apply Herr. reflexivity.
Defined.

(** ** The first call on a new client *)

Section FirstCall.
Context `{Remote}.

Lemma Token_stale_log (w : World) :
  Time_After (Expires (provider w)) (Time_Add (clock (env w)) (Second * 10)) = false →
  log (Token w).2 = log w ++ [token_request (provider w)].
Proof.
  intros Hstale. rewrite Token_stale by done. cbv zeta. refresh_cases.
Qed.

End FirstCall.

(** X10. The provider of a client made by [NewClient] starts with no
    token.  Its first method call, at any time that is not more than ten
    seconds before year one, begins with a refresh request: a GET for
    [/api/v2/token] at the URL given to [NewClient], with the user name
    and password given to [NewClient] as Basic credentials and no bearer
    header.  The request of the method follows it when the refresh
    succeeds, with the new token as bearer, and is not sent when the
    refresh fails. *)
Theorem new_client_first_call `{Remote} (URL Username Password : string)
    (op : Operation) (w : World) :
  provider w = (NewClient URL Username Password).2 →
  zero_Time ≤ clock (env w) + 10 * Second →
  let c := (NewClient URL Username Password).1 in
  let refresh :=
    {| Method := "GET"; BaseURL := URL; Path := "/api/v2/token"; Query := ∅;
       Header := ∅; BasicAuth := Some (Username, Password); JSONBody := None |} in
  BaseURL (request_of c op) = URL
  ∧ log (Token w).2 = log w ++ [refresh]
  ∧ match (Token w).1.2 with
    | Some e => call c op w = (Some e, (Token w).2)
    | None =>
        log (call c op w).2
        = log w ++ [refresh; authorized (Token w).1.1 (request_of c op)]
    end.
Proof.
  intros Hnew Hclock. cbv zeta.
  assert (Time_After (Expires (provider w))
            (Time_Add (clock (env w)) (Second * 10)) = false) as Hstale.
  { rewrite Hnew. unfold Time_After, Time_Add. simpl.
    apply bool_decide_eq_false. lia. }
  pose proof (Token_stale_log w Hstale) as Hlog.
  rewrite Hnew in Hlog. simpl in Hlog.
  split_and!.
  - destruct op as [input| |user|]; simpl; try reflexivity.
    unfold GetUsers_request.
    destruct (bool_decide (Order input ≠ "")), (bool_decide (Limit input > 0)),
      (bool_decide (Offset input > 0)); reflexivity.
  - exact Hlog.
  - destruct ((Token w).1.2) as [e|] eqn:Herr.
    + apply injective_projections.
      * apply call_Do_error. by rewrite Do_NewClient, Herr.
      * by rewrite call_world, Do_NewClient, Herr.
    + rewrite call_world, Do_NewClient, Herr, send_log, Hlog.
      by rewrite <- app_assoc.
Qed.

Lemma new_client_first_call_witness :
  provider (Mock.world Mock.two_pages Mock.new_provider)
  = (NewClient "http://localhost" "admin" "secret").2
  ∧ zero_Time ≤ clock (env (Mock.world Mock.two_pages Mock.new_provider)) + 10 * Second
  ∧ log (call Mock.new_client (Call_GetUsers first_page)
           (Mock.world Mock.two_pages Mock.new_provider)).2
    = [token_request Mock.new_provider;
       authorized "tok1" (GetUsers_request Mock.new_client first_page)].
Proof.
  assert (zero_Time
          ≤ clock (env (Mock.world Mock.two_pages Mock.new_provider)) + 10 * Second)
    as Hclock by (vm_compute; discriminate).
  split_and!; [reflexivity|exact Hclock|].
  destruct (@new_client_first_call Mock.remote "http://localhost" "admin" "secret"
              (Call_GetUsers first_page)
              (Mock.world Mock.two_pages Mock.new_provider) eq_refl Hclock)
    as (_ & _ & Hcall).
  exact Hcall.
Defined.

(** ** What reaches the wire *)

Section WireProperties.
Context `{Remote}.

Lemma GetUsers_request_JSONBody (c : client) (input : GetUsersInput) :
  JSONBody (GetUsers_request c input) = None.
Proof.
  unfold GetUsers_request.
  destruct (bool_decide (Order input ≠ "")), (bool_decide (Limit input > 0)),
    (bool_decide (Offset input > 0)); reflexivity.
Qed.

Lemma token_request_reads (t : tokenProvider) : reads_only (token_request t).
Proof. unfold reads_only. split_and!; [done|done|by left]. Qed.

(** [GetUsers] sends reading requests only. *)
Lemma GetUsers_reads (c : client) (input : GetUsersInput) (w : World) :
  ∃ l, log (GetUsers c input w).2 = log w ++ l ∧ Forall reads_only l.
Proof.
  pose proof (call_world c (Call_GetUsers input) w) as Hworld.
  simpl in Hworld. unfold mbind, M_bind, mret, M_ret in Hworld.
  assert ((GetUsers c input w).2
          = (Do run_Plugin (cli c) (GetUsers_request c input) w).2) as ->.
  { by destruct (GetUsers c input w). }
  destruct (Do_requests c (GetUsers_request c input) w) as (l & Hl & [Hstop|Hsent]).
  - destruct Hstop as (e & _ & Hlog). exists l. split; [done|].
    eapply Forall_impl; [exact Hl|]. intros r [t ->]. apply token_request_reads.
  - destruct Hsent as (req' & (Hm & _ & Hp & _ & _ & Hj & _) & Hlog).
    exists (l ++ [req']). split; [done|].
    apply Forall_app. split.
    + eapply Forall_impl; [exact Hl|]. intros r [t ->]. apply token_request_reads.
    + constructor; [|constructor]. unfold reads_only. split_and!.
      * by rewrite Hm, GetUsers_request_Method.
      * by rewrite Hj, GetUsers_request_JSONBody.
      * right. by rewrite Hp, GetUsers_request_Path.
Qed.

Lemma GetAllUsers_loop_reads (c : client) fuel Input all w r w' :
  GetAllUsers_loop fuel c Input all w = Some (r, w') →
  ∃ l, log w' = log w ++ l ∧ Forall reads_only l.
Proof.
  revert Input all w. induction fuel as [|fuel IH]; intros Input all w; [done|].
  rewrite GetAllUsers_loop_step.
  destruct (GetUsers_reads c Input w) as (l0 & Hl0 & Hr0).
  destruct ((GetUsers c Input w).1.2) as [e|].
  - intros [= _ <-]. by exists l0.
  - case_bool_decide.
    + intros [= _ <-]. by exists l0.
    + intros Hrest. destruct (IH _ _ _ Hrest) as (l & Hl & Hr).
      exists (l0 ++ l). split.
      * by rewrite Hl, Hl0, app_assoc.
      * by apply Forall_app.
Qed.

Lemma request_of_not_token (c : client) (op : Operation) :
  String.eqb (Path (request_of c op)) "/api/v2/token" = false.
Proof.
  destruct op as [input| |user|]; simpl; try reflexivity.
  by rewrite GetUsers_request_Path.
Qed.

Lemma api_requests_tokens (l : list Request) :
  Forall (λ r, ∃ t, r = token_request t) l → api_requests l = [].
Proof.
  unfold api_requests. induction 1 as [|r l [t ->] _ IH]; [done|].
  simpl. exact IH.
Qed.

End WireProperties.

(** X11. Whatever the server answers and however the run ends,
    [GetAllUsers] puts only reading requests on the wire: each is a GET
    without a body, for [/api/v2/token] or for [/api/v2/users]. *)
Theorem GetAllUsers_reads_only `{Remote} (c : client) (fuel : nat) (w : World)
    (r : Users * option error) (w' : World) :
  GetAllUsers fuel c w = Some (r, w') →
  ∃ l, log w' = log w ++ l ∧ Forall reads_only l.
Proof. apply GetAllUsers_loop_reads. Qed.

(** X12. A run of [GetAllUsers] that returns without an error has made
    one request for the list more than it has met full pages, and every
    full page has brought 500 records or more: the number of requests for
    the list is at most the number of records returned, divided by 500,
    plus one. *)
Theorem GetAllUsers_call_count `{Remote} (c : client) (fuel : nat) (w : World)
    (users : Users) (w' : World) :
  GetAllUsers fuel c w = Some ((users, None), w') →
  ∃ calls : nat,
    length (users_calls (log w')) = (length (users_calls (log w)) + calls)%nat
    ∧ (1 ≤ calls)%nat
    ∧ 500 * (Z.of_nat calls - 1) ≤ GoInt.len users
    ∧ Z.of_nat calls ≤ GoInt.len users `div` 500 + 1.
Proof.
  intros Hrun. unfold GetAllUsers in Hrun. rewrite <- page_input_0 in Hrun.
  destruct (GetAllUsers_loop_success_origin c _ _ _ _ _ _ Hrun)
    as (pages & w1 & last & Hpages & Hlast & Hshort & ->).
  rewrite Nat.add_0_l in Hlast.
  exists (S (length pages)).
  assert (500 * Z.of_nat (length pages) ≤ GoInt.len ([] ++ concat pages ++ last))
    as Hbound.
  { pose proof (full_pages_length c _ _ _ _ Hpages) as Hfull.
    unfold GoInt.len in *. simpl. rewrite length_app. lia. }
  split_and!.
  - rewrite (GetUsers_calls c _ _ _ _ Hlast), (full_pages_calls c _ _ _ _ Hpages).
    rewrite !length_app, length_fmap, length_seq. simpl. lia.
  - lia.
  - lia.
  - assert (Z.of_nat (length pages) ≤ GoInt.len ([] ++ concat pages ++ last) `div` 500).
    { apply Z.div_le_lower_bound; lia. }
    lia.
Qed.

(** X13. No method tries twice.  What a single-request method adds to
    the log is refresh requests of the token plugin and, unless a plugin
    has stopped it, its own request once, the same as it was built but
    for the [Authorization] header. *)
Theorem call_single_attempt `{Remote} (c : client) (op : Operation) (w : World) :
  ∃ l, log (call c op w).2 = log w ++ l
    ∧ (api_requests l = []
       ∨ ∃ req', same_but_Authorization (request_of c op) req'
           ∧ api_requests l = [req']).
Proof.
  rewrite call_world.
  destruct (Do_requests c (request_of c op) w) as (l & Hl & [Hstop|Hsent]).
  - destruct Hstop as (e & _ & Hlog). exists l. split; [done|].
    left. by apply api_requests_tokens.
  - destruct Hsent as (req' & Hsame & Hlog).
    exists (l ++ [req']). split; [done|]. right. exists req'. split; [done|].
    unfold api_requests. rewrite List.filter_app.
    fold (api_requests l). rewrite (api_requests_tokens l Hl). simpl.
    destruct Hsame as (_ & _ & Hp & _). by rewrite Hp, request_of_not_token.
Qed.

Lemma GetAllUsers_reads_only_witness :
  ∃ w' l,
    GetAllUsers 2 Mock.new_client (Mock.world Mock.two_pages Mock.new_provider)
    = Some ((Mock.page 1 500 ++ Mock.page 501 10, None), w')
    ∧ log w' = log (Mock.world Mock.two_pages Mock.new_provider) ++ l
    ∧ Forall reads_only l.
Proof.
  assert (GetAllUsers 2 Mock.new_client (Mock.world Mock.two_pages Mock.new_provider)
          = Some ((Mock.page 1 500 ++ Mock.page 501 10, None),
                  (GetUsers Mock.new_client {| Offset := 500; Limit := 500; Order := "" |}
                     (GetUsers Mock.new_client {| Offset := 0; Limit := 500; Order := "" |}
                        (Mock.world Mock.two_pages Mock.new_provider)).2).2))
    as Hrun by (vm_compute; reflexivity).
  destruct (GetAllUsers_reads_only _ _ _ _ _ Hrun) as (l & Hlog & Hreads).
  by eexists _, l.
Defined.

Lemma GetAllUsers_call_count_witness :
  ∃ w' calls,
    GetAllUsers 2 Mock.new_client (Mock.world Mock.two_pages Mock.new_provider)
    = Some ((Mock.page 1 500 ++ Mock.page 501 10, None), w')
    ∧ Z.of_nat calls
      ≤ GoInt.len (Mock.page 1 500 ++ Mock.page 501 10) `div` 500 + 1.
Proof.
  assert (GetAllUsers 2 Mock.new_client (Mock.world Mock.two_pages Mock.new_provider)
          = Some ((Mock.page 1 500 ++ Mock.page 501 10, None),
                  (GetUsers Mock.new_client {| Offset := 500; Limit := 500; Order := "" |}
                     (GetUsers Mock.new_client {| Offset := 0; Limit := 500; Order := "" |}
                        (Mock.world Mock.two_pages Mock.new_provider)).2).2))
    as Hrun by (vm_compute; reflexivity).
  destruct (GetAllUsers_call_count _ _ _ _ _ Hrun) as (calls & _ & _ & _ & Hcalls).
  by eexists _, calls.
Defined.

(** ** The query of the list request, read back *)

Section QueryProperties.

Lemma Itoa_inj (a b : Z) : GoInt.Itoa a = GoInt.Itoa b → a = b.
Proof.
  intros Heq. pose proof (Atoi_Itoa a) as Ha. rewrite Heq, Atoi_Itoa in Ha.
  by simplify_eq.
Qed.

Lemma GetUsers_request_lookup (c : client) (input : GetUsersInput) (k : string) :
  Query (GetUsers_request c input) !! k =
    if decide (k = "order") then
      (if decide (Order input = "") then None else Some (Order input))
    else if decide (k = "limit") then
      (if decide (0 < Limit input) then Some (GoInt.Itoa (Limit input)) else None)
    else if decide (k = "offset") then
      (if decide (0 < Offset input) then Some (GoInt.Itoa (Offset input)) else None)
    else None.
Proof.
  rewrite GetUsers_request_Query.
  repeat case_bool_decide; repeat case_decide; subst;
    try lia; try done; by simplify_map_eq.
Qed.

End QueryProperties.

(** X14. The query of the list request keeps the order as it is and the
    offset and the limit up to their sign: two inputs give the same query
    exactly when they have the same order and the same offset and limit
    once those that are not positive are counted as zero.  So every
    positive offset and limit can be read back from the request, and the
    client that builds it plays no part in the query. *)
Theorem GetUsers_query_injective (c c' : client) (input input' : GetUsersInput) :
  Query (GetUsers_request c input) = Query (GetUsers_request c' input')
  ↔ effective_input input = effective_input input'.
Proof.
  split.
  - intros Hsame.
    pose proof (f_equal (λ q : gmap string string, q !! "offset") Hsame) as Hoffset.
    pose proof (f_equal (λ q : gmap string string, q !! "limit") Hsame) as Hlimit.
    pose proof (f_equal (λ q : gmap string string, q !! "order") Hsame) as Horder.
    simpl in *. rewrite !GetUsers_request_lookup in Hoffset, Hlimit, Horder.
    simpl in *.
    unfold effective_input. f_equal.
    + clear Hlimit Horder. repeat case_decide; simplify_eq; try lia.
      apply Itoa_inj in Hoffset. lia.
    + clear Hoffset Horder. repeat case_decide; simplify_eq; try lia.
      apply Itoa_inj in Hlimit. lia.
    + clear Hoffset Hlimit. repeat case_decide; simplify_eq; congruence.
  - unfold effective_input. intros [= Hoffset Hlimit Horder].
    apply map_eq. intros k. rewrite !GetUsers_request_lookup, Horder.
    repeat case_decide; try done; try lia; f_equal; f_equal; lia.
Qed.
